(** * Download endpoint of the speed test: a shallow embedding.

    The development follows [functions/api/download.js]: the size
    validation of [onRequestGet], the pull-driven stream producer, the
    cancel callback, and the preflight handler [onRequestOptions].  The
    other revisions of the same endpoint that the repository carries
    are embedded next to it ([Rev000], [Rev001], [Rev002]), and so is
    the download request of the page that runs the test ([Page]).

    JavaScript numbers that occur here are integers far below 2^53, so
    they are modelled by [Z]; the only place a non-integer can appear is
    the result of [parseInt], whose [NaN] is a constructor of [number]. *)

From Stdlib Require Import ZArith List String Ascii Bool Lia.
From Stdlib Require Import Init.Byte DecimalString DecimalPos.

Import ListNotations.
Open Scope string_scope.
Open Scope list_scope.
Open Scope Z_scope.

(** ** The fragment of the JavaScript runtime the endpoint uses *)

Module JS.

(** The code unit of a character.  Strings are sequences of code units
    below 256. *)
Definition code (c : ascii) : Z := Z.of_N (N_of_ascii c).

(** A Number as [parseInt] produces it: [NaN] or an integer.  A digit
    string longer than 2^53 is rounded by the runtime; rounding is
    monotone and every bound of this program is far below 2^53, so the
    comparisons of the validator see the same outcome on the exact
    integer. *)
Inductive number : Type :=
| NaN
| Num (z : Z).

(** White space that [parseInt] skips (StrWhiteSpaceChar below 256):
    TAB, LF, VT, FF, CR, SP and NBSP. *)
Definition isWhiteSpace (c : ascii) : bool :=
  let n := code c in
  ((9 <=? n) && (n <=? 13)) || (n =? 32) || (n =? 160).

Fixpoint trimStart (s : string) : string :=
  match s with
  | String c r => if isWhiteSpace c then trimStart r else s
  | EmptyString => EmptyString
  end.

(** The value of a character as a digit, in any radix up to 36. *)
Definition digitValue (c : ascii) : option Z :=
  let n := code c in
  if (48 <=? n) && (n <=? 57) then Some (n - 48)
  else if (97 <=? n) && (n <=? 122) then Some (n - 97 + 10)
  else if (65 <=? n) && (n <=? 90) then Some (n - 65 + 10)
  else None.

Definition radixDigit (R : Z) (c : ascii) : option Z :=
  match digitValue c with
  | Some d => if d <? R then Some d else None
  | None => None
  end.

(** The longest prefix of radix-[R] digits, most significant first. *)
Fixpoint digitPrefix (R : Z) (s : string) : list Z :=
  match s with
  | String c r =>
      match radixDigit R c with
      | Some d => d :: digitPrefix R r
      | None => []
      end
  | EmptyString => []
  end.

Definition mathInt (R : Z) (ds : list Z) : Z :=
  fold_left (fun acc d => acc * R + d) ds 0.

Definition ToInt32 (z : Z) : Z := (z + 2 ^ 31) mod 2 ^ 32 - 2 ^ 31.

Definition stripSign (s : string) : Z * string :=
  match s with
  | String c r =>
      if Ascii.eqb c "-" then (-1, r)
      else if Ascii.eqb c "+" then (1, r)
      else (1, s)
  | EmptyString => (1, s)
  end.

Definition stripHexPrefix (s : string) : option string :=
  match s with
  | String c0 (String c1 r) =>
      if Ascii.eqb c0 "0" && (Ascii.eqb c1 "x" || Ascii.eqb c1 "X")
      then Some r else None
  | _ => None
  end.

(** [parseInt(string, radix)], following the steps of the language
    standard: trim, sign, radix handling, longest digit prefix. *)
Definition parseInt (inputString : string) (radix : Z) : number :=
  let '(sign, rest) := stripSign (trimStart inputString) in
  let R := ToInt32 radix in
  if (R =? 0) || (R =? 16) then
    let '(R', rest') :=
      match stripHexPrefix rest with
      | Some r => (16, r)
      | None => (if R =? 0 then 10 else R, rest)
      end in
    match digitPrefix R' rest' with
    | [] => NaN
    | ds => Num (sign * mathInt R' ds)
    end
  else if (R <? 2) || (36 <? R) then NaN
  else
    match digitPrefix R rest with
    | [] => NaN
    | ds => Num (sign * mathInt R ds)
    end.

(** Truthiness of the value [URLSearchParams.get] returns: [null] and
    the empty string are falsy, every other string is truthy. *)
Definition truthy (v : option string) : bool :=
  match v with
  | None => false
  | Some EmptyString => false
  | Some (String _ _) => true
  end.

(** [ToString] on what [URLSearchParams.get] returns. *)
Definition ToString (v : option string) : string :=
  match v with
  | Some s => s
  | None => "null"
  end.

(** [Number.prototype.toString] on an integer below 10^21: its decimal
    digits, with a minus sign when negative. *)
Definition toString (n : Z) : string :=
  NilZero.string_of_int (Z.to_int n).

(** *** Plain objects used as header records

    Insertion-ordered; writing an existing key replaces its value in
    place, which is what an object literal with a spread does. *)
Definition Object := list (string * string).

Fixpoint setProperty (k v : string) (o : Object) : Object :=
  match o with
  | [] => [(k, v)]
  | (k', v') :: rest =>
      if String.eqb k' k then (k, v) :: rest
      else (k', v') :: setProperty k v rest
  end.

Fixpoint getProperty (k : string) (o : Object) : option string :=
  match o with
  | [] => None
  | (k', v') :: rest => if String.eqb k' k then Some v' else getProperty k rest
  end.

(** [{ ...base, k1: v1, ..., kn: vn }] *)
Definition objectLiteral (base : Object) (props : list (string * string)) : Object :=
  fold_left (fun o kv => setProperty (fst kv) (snd kv) o) props base.

(** *** Exceptions, the console, typed arrays *)

Inductive Error : Type :=
| TypeError
| RangeError
| QuotaExceededError
| OperationError
| ReferenceError (name : string).

Inductive LogLine : Type :=
| console_log_line (args : list string)
| console_error_line (message : string) (error : Error).

Definition Uint8Array := list byte.

(** The process-wide random source behind [crypto.getRandomValues]: an
    arbitrary tape of bytes, and the set of tape positions at which a
    call fails.  Every deterministic source is such a tape. *)
Record RandomSource : Type := mkRandomSource {
  tape : nat -> byte;
  outage : nat -> bool
}.

(** *** Streams

    The stream's state as the transport sees it: [STREAMING] while the
    controller accepts chunks, [CLOSED] once the producer has called
    [controller.close()], [ERRORED] once it has called
    [controller.error(e)], and [CANCELLED] once the consumer has
    cancelled. *)
Inductive StreamState : Type :=
| STREAMING
| CLOSED
| ERRORED (reason : Error)
| CANCELLED.

(** Everything one request can read or write. *)
Record World : Type := mkWorld {
  bytesSent : Z;                 (* the closure variable of onRequestGet *)
  state : StreamState;
  enqueued : list Uint8Array;    (* chunks handed to the controller, oldest first *)
  random : RandomSource;
  drawn : nat;                   (* tape position of the random source *)
  console : list LogLine         (* oldest first *)
}.

Definition with_bytesSent (v : Z) (w : World) : World :=
  mkWorld v (state w) (enqueued w) (random w) (drawn w) (console w).
Definition with_state (v : StreamState) (w : World) : World :=
  mkWorld (bytesSent w) v (enqueued w) (random w) (drawn w) (console w).
Definition with_enqueued (v : list Uint8Array) (w : World) : World :=
  mkWorld (bytesSent w) (state w) v (random w) (drawn w) (console w).
Definition with_drawn (v : nat) (w : World) : World :=
  mkWorld (bytesSent w) (state w) (enqueued w) (random w) v (console w).
Definition with_console (v : list LogLine) (w : World) : World :=
  mkWorld (bytesSent w) (state w) (enqueued w) (random w) (drawn w) v.

(** *** Computations: state passing with exceptions *)

Inductive Completion (A : Type) : Type :=
| Normal (a : A)
| Throw (e : Error).
Arguments Normal {A} a.
Arguments Throw {A} e.

Definition M (A : Type) : Type := World -> Completion A * World.

Definition ret {A} (a : A) : M A := fun w => (Normal a, w).

Definition bind {A B} (m : M A) (k : A -> M B) : M B :=
  fun w =>
    match m w with
    | (Normal a, w') => k a w'
    | (Throw e, w') => (Throw e, w')
    end.

Definition throw {A} (e : Error) : M A := fun w => (Throw e, w).

Definition try_catch {A} (body : M A) (handler : Error -> M A) : M A :=
  fun w =>
    match body w with
    | (Normal a, w') => (Normal a, w')
    | (Throw e, w') => handler e w'
    end.

Definition read {A} (f : World -> A) : M A := fun w => (Normal (f w), w).
Definition write (f : World -> World) : M unit := fun w => (Normal tt, f w).

Declare Scope js_scope.
Delimit Scope js_scope with js.
Notation "x <- m ;; k" := (bind m (fun x => k))
  (at level 61, m at next level, right associativity) : js_scope.
Notation "m ;; k" := (bind m (fun _ => k))
  (at level 61, right associativity) : js_scope.
Open Scope js_scope.

Definition console_log (args : list string) : M unit :=
  write (fun w => with_console (console w ++ [console_log_line args]) w).

Definition console_error (message : string) (error : Error) : M unit :=
  write (fun w => with_console (console w ++ [console_error_line message error]) w).

(** [new Uint8Array(size)]: [size] zeroed bytes. *)
Definition new_Uint8Array (size : Z) : M Uint8Array :=
  if size <? 0 then throw RangeError
  else ret (repeat x00 (Z.to_nat size)).

(** [crypto.getRandomValues(buffer)] overwrites every slot of [buffer]
    with the next bytes of the source and returns it; it refuses more
    than 65536 bytes at a time. *)
Definition getRandomValues (buffer : Uint8Array) : M Uint8Array :=
  fun w =>
    if 65536 <? Z.of_nat (List.length buffer) then (Throw QuotaExceededError, w)
    else if outage (random w) (drawn w) then (Throw OperationError, w)
    else (Normal (map (tape (random w)) (seq (drawn w) (List.length buffer))),
          with_drawn (drawn w + List.length buffer)%nat w).

(** The stream controller, as handed to [pull]. *)
Definition controller_close : M unit :=
  fun w =>
    match state w with
    | STREAMING => (Normal tt, with_state CLOSED w)
    | _ => (Throw TypeError, w)
    end.

Definition controller_enqueue (chunk : Uint8Array) : M unit :=
  fun w =>
    match state w with
    | STREAMING => (Normal tt, with_enqueued (enqueued w ++ [chunk]) w)
    | _ => (Throw TypeError, w)
    end.

Definition controller_error (e : Error) : M unit :=
  fun w =>
    match state w with
    | STREAMING => (Normal tt, with_state (ERRORED e) w)
    | _ => (Normal tt, w)
    end.

(** *** Streams and the transport that drives them

    An underlying source is the pair of callbacks handed to
    [new ReadableStream].  The runtime calls [pull] when it wants more
    data and [cancel] when the consumer goes away, and it calls neither
    once the stream has left the readable state.  An exception escaping
    [pull] errors the stream.  A cancel first takes the stream out of
    the readable state and then runs the source's callback. *)
Record UnderlyingSource : Type := mkSource {
  source_pull : M unit;
  source_cancel : string -> M unit
}.

Inductive ReadableStream : Type :=
| stream_of (src : UnderlyingSource).

(** [new ReadableStream(source)]: a fresh stream, readable and empty. *)
Definition new_ReadableStream (src : UnderlyingSource) : M ReadableStream :=
  write (fun w => with_enqueued [] (with_state STREAMING w)) ;;
  ret (stream_of src).

Inductive Event : Type :=
| PullRequested
| CancelRequested (reason : string).

Definition dispatch (src : UnderlyingSource) (ev : Event) (w : World) : World :=
  match state w with
  | STREAMING =>
      match ev with
      | PullRequested =>
          match source_pull src w with
          | (Normal _, w') => w'
          | (Throw e, w') => snd (controller_error e w')
          end
      | CancelRequested reason =>
          snd (source_cancel src reason (with_state CANCELLED w))
      end
  | _ => w
  end.

Definition run (src : UnderlyingSource) (evs : list Event) (w : World) : World :=
  fold_left (fun w ev => dispatch src ev w) evs w.

(** *** Responses *)

Record ResponseInit : Type := mkInit {
  init_status : option Z;
  init_headers : option Object
}.

Record Response : Type := mkResponse {
  body : option ReadableStream;
  status : Z;
  headers : Object
}.

Definition nullBodyStatus (s : Z) : bool :=
  (s =? 101) || (s =? 103) || (s =? 204) || (s =? 205) || (s =? 304).

(** [new Response(body, init)]: the status defaults to 200. *)
Definition new_Response (b : option ReadableStream) (init : ResponseInit) : M Response :=
  let s := match init_status init with Some s => s | None => 200 end in
  let h := match init_headers init with Some h => h | None => [] end in
  if (s <? 200) || (599 <? s) then throw RangeError
  else
    match b with
    | Some _ => if nullBodyStatus s then throw TypeError else ret (mkResponse b s h)
    | None => ret (mkResponse b s h)
    end.

(** *** Requests *)

Record Context : Type := mkContext {
  searchParams : list (string * string)   (* the decoded query of request.url *)
}.

Definition searchParams_get (name : string) (c : Context) : option string :=
  getProperty name (searchParams c).

End JS.

(** ** functions/api/download.js *)

Module Download.
Import JS.

Definition DEFAULT_FILE_SIZE_BYTES : Z := 10 * 1024 * 1024.
Definition MIN_FILE_SIZE_BYTES : Z := 1 * 1024.
Definition MAX_FILE_SIZE_BYTES : Z := 250 * 1024 * 1024.
Definition chunkSize : Z := 64 * 1024.

Definition generateRandomChunk (size : Z) : M Uint8Array :=
  buffer <- new_Uint8Array size ;;
  filled <- getRandomValues buffer ;;
  ret filled.

(** The block of [onRequestGet] that turns [requestedSize] into
    [fileSize]; the test [!isNaN(parsedSize)] is the [Num] branch. *)
Definition resolveFileSize (requestedSize : option string) : M Z :=
  let fileSize := DEFAULT_FILE_SIZE_BYTES in
  let fallback :=
    console_log
      [("Invalid or out-of-range size parameter received: "
          ++ ToString requestedSize ++ ". Using default size.")%string] ;;
    ret fileSize in
  if truthy requestedSize then
    match parseInt (ToString requestedSize) 10 with
    | Num parsedSize =>
        if (parsedSize >=? MIN_FILE_SIZE_BYTES) && (parsedSize <=? MAX_FILE_SIZE_BYTES)
        then ret parsedSize
        else fallback
    | NaN => fallback
    end
  else ret fileSize.

Definition corsHeaders : Object :=
  objectLiteral []
    [("Access-Control-Allow-Origin", "*");
     ("Access-Control-Allow-Methods", "GET, OPTIONS");
     ("Access-Control-Allow-Headers", "Content-Type")].

Definition pull (fileSize : Z) : M unit :=
  sent <- read bytesSent ;;
  if sent >=? fileSize then controller_close
  else
    let bytesRemaining := fileSize - sent in
    let currentChunkSize := Z.min chunkSize bytesRemaining in
    try_catch
      (chunk <- generateRandomChunk currentChunkSize ;;
       controller_enqueue chunk ;;
       write (fun w => with_bytesSent (bytesSent w + currentChunkSize) w))
      (fun error =>
         console_error "Error generating or enqueuing chunk:" error ;;
         controller_error error).

Definition cancel (reason : string) : M unit :=
  console_log ["Download stream cancelled by client."; reason].

Definition source (fileSize : Z) : UnderlyingSource :=
  mkSource (pull fileSize) cancel.

Definition onRequestGet (context : Context) : M Response :=
  let requestedSize := searchParams_get "size" context in
  fileSize <- resolveFileSize requestedSize ;;
  write (with_bytesSent 0) ;;
  stream <- new_ReadableStream (source fileSize) ;;
  new_Response (Some stream)
    (mkInit (Some 200)
       (Some (objectLiteral corsHeaders
                [("Content-Type", "application/octet-stream");
                 ("Content-Length", toString fileSize);
                 ("Cache-Control", "no-store, no-cache, must-revalidate, max-age=0");
                 ("Pragma", "no-cache")]))).

Definition onRequestOptions (context : Context) : M Response :=
  let corsHeaders :=
    objectLiteral []
      [("Access-Control-Allow-Origin", "*");
       ("Access-Control-Allow-Methods", "GET, POST, OPTIONS");
       ("Access-Control-Allow-Headers", "Content-Type, Range")] in
  new_Response None (mkInit (Some 204) (Some corsHeaders)).

End Download.

(** ** Earlier revision with a fixed size (src/unnamed/part_002) *)

Module Rev002.
Import JS.

Definition fileSize : Z := 10 * 1024 * 1024.
Definition chunkSize : Z := 64 * 1024.

(** [chunk[i] = v] on a typed array: a write past the end is ignored. *)
Fixpoint setIndex (chunk : Uint8Array) (i : nat) (v : byte) : Uint8Array :=
  match chunk, i with
  | [], _ => []
  | _ :: rest, O => v :: rest
  | b :: rest, S i' => b :: setIndex rest i' v
  end.

(** [for (let i = 0; i < bytesToSend; i++) chunk[i] = 97;] *)
Definition fillLoop (bytesToSend : Z) (chunk : Uint8Array) : Uint8Array :=
  fold_left (fun chunk i => setIndex chunk i x61) (seq 0 (Z.to_nat bytesToSend)) chunk.

Definition pull : M unit :=
  sent <- read bytesSent ;;
  if sent >=? fileSize then controller_close
  else
    let bytesToSend := Z.min chunkSize (fileSize - sent) in
    chunk <- new_Uint8Array bytesToSend ;;
    let chunk := fillLoop bytesToSend chunk in
    controller_enqueue chunk ;;
    write (fun w => with_bytesSent (bytesSent w + bytesToSend) w).

Definition cancel (reason : string) : M unit :=
  console_log ["Download stream cancelled:"; reason].

Definition source : UnderlyingSource := mkSource pull cancel.

Definition corsHeaders : Object :=
  objectLiteral []
    [("Access-Control-Allow-Origin", "*");
     ("Access-Control-Allow-Methods", "GET, OPTIONS");
     ("Access-Control-Allow-Headers", "Content-Type")].

Definition onRequestGet (context : Context) : M Response :=
  write (with_bytesSent 0) ;;
  readableStream <- new_ReadableStream source ;;
  new_Response (Some readableStream)
    (mkInit (Some 200)
       (Some (objectLiteral corsHeaders
                [("Content-Type", "application/octet-stream");
                 ("Content-Length", toString fileSize);
                 ("Cache-Control", "no-store, no-cache, must-revalidate, max-age=0");
                 ("Pragma", "no-cache")]))).

Definition onRequestOptions (context : Context) : M Response :=
  let corsHeaders :=
    objectLiteral []
      [("Access-Control-Allow-Origin", "*");
       ("Access-Control-Allow-Methods", "GET, POST, OPTIONS");
       ("Access-Control-Allow-Headers", "Content-Type")] in
  new_Response None (mkInit None (Some corsHeaders)).

End Rev002.

(** ** Earlier revision with a size parameter (src/unnamed/part_000)

    The file closes [onRequestGet] and then goes on with a second
    [return] and closing brace at the top level, so it does not load as
    a module and its download handler is not embedded.  Its preflight
    handler is the same text as the one of part_002. *)

Module Rev000.
Import JS.

Definition onRequestOptions (context : Context) : M Response :=
  let corsHeaders :=
    objectLiteral []
      [("Access-Control-Allow-Origin", "*");
       ("Access-Control-Allow-Methods", "GET, POST, OPTIONS");
       ("Access-Control-Allow-Headers", "Content-Type")] in
  new_Response None (mkInit None (Some corsHeaders)).

End Rev000.

(** ** Revision with a 10 MiB minimum (second file of src/unnamed/part_001) *)

Module Rev001.
Import JS.

Definition CHUNK_SIZE_BYTES : Z := 64 * 1024.
Definition DEFAULT_FILE_SIZE_BYTES : Z := 10 * 1024 * 1024.
Definition MIN_FILE_SIZE_BYTES : Z := 10 * 1024 * 1024.
Definition MAX_FILE_SIZE_BYTES : Z := 250 * 1024 * 1024.

(** The validation block of [onRequestGet]. *)
Definition resolveFileSize (requestedSize : option string) : M Z :=
  let fileSize := DEFAULT_FILE_SIZE_BYTES in
  let fallback :=
    console_log
      [("Invalid or out-of-range size parameter: '"
          ++ ToString requestedSize ++ "'. Falling back to default size.")%string] ;;
    ret fileSize in
  if truthy requestedSize then
    match parseInt (ToString requestedSize) 10 with
    | Num parsedSize =>
        if (parsedSize >=? MIN_FILE_SIZE_BYTES) && (parsedSize <=? MAX_FILE_SIZE_BYTES)
        then ret parsedSize
        else fallback
    | NaN => fallback
    end
  else ret fileSize.

Definition generateRandomChunk (size : Z) : M Uint8Array :=
  buffer <- new_Uint8Array size ;;
  filled <- getRandomValues buffer ;;
  ret filled.

Definition pull (fileSize : Z) : M unit :=
  sent <- read bytesSent ;;
  if sent >=? fileSize then controller_close
  else
    let bytesRemaining := fileSize - sent in
    let currentChunkSize := Z.min CHUNK_SIZE_BYTES bytesRemaining in
    try_catch
      (chunk <- generateRandomChunk currentChunkSize ;;
       controller_enqueue chunk ;;
       write (fun w => with_bytesSent (bytesSent w + currentChunkSize) w))
      (fun error =>
         console_error "Error generating or enqueuing chunk:" error ;;
         controller_error error).

Definition cancel (reason : string) : M unit :=
  console_log ["Stream cancelled by client."; reason].

Definition source (fileSize : Z) : UnderlyingSource :=
  mkSource (pull fileSize) cancel.

Definition responseHeaders (fileSize : Z) : Object :=
  objectLiteral []
    [("Content-Type", "application/octet-stream");
     ("Content-Length", toString fileSize);
     ("Cache-Control", "no-store, no-cache, must-revalidate, max-age=0");
     ("Pragma", "no-cache");
     ("Connection", "keep-alive");
     ("Access-Control-Allow-Origin", "*");
     ("Access-Control-Allow-Methods", "GET, OPTIONS");
     ("Access-Control-Allow-Headers", "Content-Type")].

Definition onRequestGet (context : Context) : M Response :=
  let requestedSize := searchParams_get "size" context in
  fileSize <- resolveFileSize requestedSize ;;
  write (with_bytesSent 0) ;;
  stream <- new_ReadableStream (source fileSize) ;;
  new_Response (Some stream) (mkInit (Some 200) (Some (responseHeaders fileSize))).

Definition onRequestOptions (context : Context) : M Response :=
  let corsHeaders :=
    objectLiteral []
      [("Access-Control-Allow-Origin", "*");
       ("Access-Control-Allow-Methods", "GET, OPTIONS");
       ("Access-Control-Allow-Headers", "Content-Type, Range");
       ("Access-Control-Max-Age", "86400")] in
  new_Response None (mkInit (Some 204) (Some corsHeaders)).

End Rev001.

(** ** The page that runs the test (first file of src/unnamed/part_001)

    Only what the page fixes about its download request is embedded:
    the size it expects and the query it sends.  Its timing and speed
    arithmetic is on clock readings and is left out. *)

Module Page.
Import JS.

Definition DOWNLOAD_FILE_SIZE_BYTES : Z := 10 * 1024 * 1024.

(** The query of [fetch(`${DOWNLOAD_API_URL}?r=${Math.random()}`)]: one
    parameter, [r], holding the printed random number. *)
Definition downloadQuery (random : string) : Context := mkContext [("r", random)].

End Page.

(** ** Vocabulary of the statements *)

Import JS.

(** Bytes held by a list of chunks. *)
Definition byteLength (chunk : Uint8Array) : Z := Z.of_nat (List.length chunk).

Definition totalBytes (chunks : list Uint8Array) : Z :=
  fold_right (fun chunk acc => byteLength chunk + acc) 0 chunks.

(** The world a handler leaves behind and the value it returns. *)
Definition worldAfter {A} (m : M A) (w : World) : World := snd (m w).
Definition completion {A} (m : M A) (w : World) : Completion A := fst (m w).

(** A random source that never fails. *)
Definition reliable (r : RandomSource) : Prop := forall p, outage r p = false.

(** The number of chunks a transfer of [size] bytes takes. *)
Definition chunkCount (size : Z) : Z :=
  (size + Download.chunkSize - 1) / Download.chunkSize.

Definition pulls (n : nat) : list Event := repeat PullRequested n.

(** A test source: byte [k mod 256] at tape position [k], no outage. *)
Definition countingTape (k : nat) : byte :=
  match Byte.of_N (N.of_nat k mod 256) with
  | Some b => b
  | None => x00
  end.
Definition countingSource : RandomSource := mkRandomSource countingTape (fun _ => false).
Definition brokenSource : RandomSource := mkRandomSource countingTape (fun _ => true).

(** A world in which no request has opened a stream yet. *)
Definition idleWorld (r : RandomSource) : World := mkWorld 0 CANCELLED [] r 0 [].

Definition requestWithSize (raw : string) : Context := mkContext [("size", raw)].

(** Strings of decimal digits, and strings that go on with a digit. *)
Definition isDecimalDigit (c : ascii) : bool :=
  match radixDigit 10 c with Some _ => true | None => false end.

Fixpoint decimalDigits (s : string) : bool :=
  match s with
  | EmptyString => true
  | String c r => isDecimalDigit c && decimalDigits r
  end.

Definition startsWithDigit (s : string) : bool :=
  match s with
  | EmptyString => false
  | String c _ => isDecimalDigit c
  end.

(** The digits of a decimal numeral, most significant first. *)
Fixpoint uintDigits (d : Decimal.uint) : list Z :=
  match d with
  | Decimal.Nil => []
  | Decimal.D0 d => 0 :: uintDigits d
  | Decimal.D1 d => 1 :: uintDigits d
  | Decimal.D2 d => 2 :: uintDigits d
  | Decimal.D3 d => 3 :: uintDigits d
  | Decimal.D4 d => 4 :: uintDigits d
  | Decimal.D5 d => 5 :: uintDigits d
  | Decimal.D6 d => 6 :: uintDigits d
  | Decimal.D7 d => 7 :: uintDigits d
  | Decimal.D8 d => 8 :: uintDigits d
  | Decimal.D9 d => 9 :: uintDigits d
  end.

(** The size validator in the words of the specification: the default
    when the value is absent, does not parse, or parses outside the
    bounds; the parsed value otherwise. *)
Definition specResolvedSize (raw : option string) : Z :=
  match raw with
  | None => Download.DEFAULT_FILE_SIZE_BYTES
  | Some text =>
      match parseInt text 10 with
      | NaN => Download.DEFAULT_FILE_SIZE_BYTES
      | Num n =>
          if (Download.MIN_FILE_SIZE_BYTES <=? n) && (n <=? Download.MAX_FILE_SIZE_BYTES)
          then n
          else Download.DEFAULT_FILE_SIZE_BYTES
      end
  end.

(** The header record of a download response of [fileSize] bytes. *)
Definition downloadHeaders (fileSize : Z) : Object :=
  [("Access-Control-Allow-Origin", "*");
   ("Access-Control-Allow-Methods", "GET, OPTIONS");
   ("Access-Control-Allow-Headers", "Content-Type");
   ("Content-Type", "application/octet-stream");
   ("Content-Length", toString fileSize);
   ("Cache-Control", "no-store, no-cache, must-revalidate, max-age=0");
   ("Pragma", "no-cache")].

(** The console line of the validator's fallback. *)
Definition fallbackLine (raw : string) : LogLine :=
  console_log_line
    [("Invalid or out-of-range size parameter received: " ++ raw
        ++ ". Using default size.")%string].

(** The integer a string of decimal digits denotes. *)
Definition decimalValue (ds : string) : Z := mathInt 10 (digitPrefix 10 ds).

(** What the validator writes to the console for a raw value. *)
Definition validatorLog (raw : option string) : list LogLine :=
  match raw with
  | Some (String _ _ as text) =>
      match parseInt text 10 with
      | NaN => [fallbackLine text]
      | Num n =>
          if (Download.MIN_FILE_SIZE_BYTES <=? n) && (n <=? Download.MAX_FILE_SIZE_BYTES)
          then []
          else [fallbackLine text]
      end
  | _ => []
  end.

(** The world in which a download stream starts: cursor at zero, stream
    readable and empty. *)
Definition streamStart (r : RandomSource) (position : nat) (log : list LogLine) : World :=
  mkWorld 0 STREAMING [] r position log.

(** The length [pull] asks of the chunk generator in world [w]. *)
Definition stepSize (fileSize : Z) (w : World) : Z :=
  Z.min Download.chunkSize (fileSize - bytesSent w).

(** What holds of the world [w] of a stream of [fileSize] bytes that
    was created in world [w0]. *)
Record Invariant (fileSize : Z) (w0 w : World) : Prop := mkInvariant {
  inv_cursor : 0 <= bytesSent w <= fileSize;
  inv_total : totalBytes (enqueued w) = bytesSent w;
  inv_closed : state w = CLOSED -> bytesSent w = fileSize;
  inv_full : Forall (fun c => byteLength c = Download.chunkSize) (removelast (enqueued w));
  inv_bounded : Forall (fun c => 1 <= byteLength c <= Download.chunkSize) (enqueued w);
  inv_unfinished :
    bytesSent w < fileSize ->
    Forall (fun c => byteLength c = Download.chunkSize) (enqueued w);
  inv_source : random w = random w0;
  inv_drawn : drawn w = (drawn w0 + Z.to_nat (bytesSent w))%nat;
  inv_bytes :
    List.concat (enqueued w) =
    map (tape (random w0)) (seq (drawn w0) (Z.to_nat (bytesSent w)))
}.

(** The four ways a pull request can end, seen from the transport. *)
Inductive PullOutcome (fileSize : Z) (w : World) : World -> Prop :=
| pull_ignored :
    state w <> STREAMING ->
    PullOutcome fileSize w w
| pull_closes :
    state w = STREAMING -> fileSize <= bytesSent w ->
    PullOutcome fileSize w (with_state CLOSED w)
| pull_errors :
    state w = STREAMING -> bytesSent w < fileSize ->
    outage (random w) (drawn w) = true ->
    PullOutcome fileSize w
      (mkWorld (bytesSent w) (ERRORED OperationError) (enqueued w) (random w) (drawn w)
         (console w ++
            [console_error_line "Error generating or enqueuing chunk:" OperationError]))
| pull_emits :
    state w = STREAMING -> bytesSent w < fileSize ->
    outage (random w) (drawn w) = false ->
    PullOutcome fileSize w
      (mkWorld (bytesSent w + stepSize fileSize w) STREAMING
         (enqueued w ++
            [map (tape (random w)) (seq (drawn w) (Z.to_nat (stepSize fileSize w)))])
         (random w) (drawn w + Z.to_nat (stepSize fileSize w))%nat (console w)).

(** Strings made of white space only. *)
Fixpoint allBlank (s : string) : bool :=
  match s with
  | EmptyString => true
  | String c r => isWhiteSpace c && allBlank r
  end.

(** Whether the validator of functions/api/download.js takes a raw
    value as the size. *)
Definition accepted (raw : option string) : bool :=
  match raw with
  | Some text =>
      match parseInt text 10 with
      | NaN => false
      | Num n =>
          (Download.MIN_FILE_SIZE_BYTES <=? n) && (n <=? Download.MAX_FILE_SIZE_BYTES)
      end
  | None => false
  end.

(** The chunk lengths of a complete transfer: full chunks, then the
    remainder if there is one. *)
Definition chunkLayout (size : Z) : list Z :=
  repeat 65536 (Z.to_nat (size / 65536))
  ++ (if size mod 65536 =? 0 then [] else [size mod 65536]).

(** A source that fails at one tape position and nowhere else. *)
Definition failingAt (p : nat) : RandomSource :=
  mkRandomSource countingTape (fun q => Nat.eqb q p).

(** The chunk of the fixed-size revision: 65536 times the letter a. *)
Definition chunkOfA : Uint8Array := repeat x61 (Z.to_nat 65536).

(** ** The producer, one step at a time *)

Section PullStep.
Variable fileSize : Z.

Lemma stepSize_bounds w :
  bytesSent w < fileSize -> 1 <= stepSize fileSize w <= 65536.
Proof.
  unfold stepSize, Download.chunkSize. lia.
Qed.

Lemma generateRandomChunk_ok (n : Z) (w : World) :
  0 <= n <= 65536 ->
  outage (random w) (drawn w) = false ->
  Download.generateRandomChunk n w =
    (Normal (map (tape (random w)) (seq (drawn w) (Z.to_nat n))),
     with_drawn (drawn w + Z.to_nat n)%nat w).
Proof.
  intros Hn Hout.
  unfold Download.generateRandomChunk, bind, new_Uint8Array, ret, getRandomValues.
  destruct (Z.ltb_spec n 0) as [Hneg|_]; [lia|]. cbv beta iota.
  rewrite repeat_length, Z2Nat.id by lia.
  destruct (Z.ltb_spec 65536 n) as [Hbig|_]; [lia|].
  rewrite Hout. reflexivity.
Qed.

Lemma generateRandomChunk_outage (n : Z) (w : World) :
  0 <= n <= 65536 ->
  outage (random w) (drawn w) = true ->
  Download.generateRandomChunk n w = (Throw OperationError, w).
Proof.
  intros Hn Hout.
  unfold Download.generateRandomChunk, bind, new_Uint8Array, ret, getRandomValues.
  destruct (Z.ltb_spec n 0) as [Hneg|_]; [lia|]. cbv beta iota.
  rewrite repeat_length, Z2Nat.id by lia.
  destruct (Z.ltb_spec 65536 n) as [Hbig|_]; [lia|].
  rewrite Hout. reflexivity.
Qed.

(** Within the quota, the generator fails exactly on an outage. *)
Lemma generateRandomChunk_throws (n : Z) (w : World) (e : Error) :
  0 <= n <= 65536 ->
  completion (Download.generateRandomChunk n) w = Throw e ->
  outage (random w) (drawn w) = true /\ e = OperationError.
Proof.
  intros Hn Hthrow. unfold completion in Hthrow.
  destruct (outage (random w) (drawn w)) eqn:Hout.
  - rewrite generateRandomChunk_outage in Hthrow by assumption.
    simpl in Hthrow. split; congruence.
  - rewrite generateRandomChunk_ok in Hthrow by assumption.
    simpl in Hthrow. discriminate.
Qed.

Lemma pull_close w :
  state w = STREAMING -> fileSize <= bytesSent w ->
  Download.pull fileSize w = (Normal tt, with_state CLOSED w).
Proof.
  intros Hst Hge. unfold Download.pull, bind, read.
  destruct (Z.geb_spec (bytesSent w) fileSize) as [_|Hlt]; [|lia].
  unfold controller_close. rewrite Hst. reflexivity.
Qed.

Lemma pull_emit w :
  state w = STREAMING -> bytesSent w < fileSize ->
  outage (random w) (drawn w) = false ->
  Download.pull fileSize w =
    (Normal tt,
     mkWorld (bytesSent w + stepSize fileSize w) STREAMING
       (enqueued w ++ [map (tape (random w)) (seq (drawn w) (Z.to_nat (stepSize fileSize w)))])
       (random w) (drawn w + Z.to_nat (stepSize fileSize w))%nat (console w)).
Proof.
  intros Hst Hlt Hout. pose proof (stepSize_bounds w Hlt) as Hn.
  unfold Download.pull, bind at 1, read.
  destruct (Z.geb_spec (bytesSent w) fileSize) as [Hge|_]; [lia|].
  fold (stepSize fileSize w). unfold try_catch, bind.
  rewrite generateRandomChunk_ok by (assumption || lia).
  unfold controller_enqueue, with_drawn. cbn [state]. rewrite Hst.
  reflexivity.
Qed.

Lemma pull_fail w :
  state w = STREAMING -> bytesSent w < fileSize ->
  outage (random w) (drawn w) = true ->
  Download.pull fileSize w =
    (Normal tt,
     mkWorld (bytesSent w) (ERRORED OperationError) (enqueued w) (random w) (drawn w)
       (console w ++ [console_error_line "Error generating or enqueuing chunk:" OperationError])).
Proof.
  intros Hst Hlt Hout. pose proof (stepSize_bounds w Hlt) as Hn.
  unfold Download.pull, bind at 1, read.
  destruct (Z.geb_spec (bytesSent w) fileSize) as [Hge|_]; [lia|].
  fold (stepSize fileSize w). unfold try_catch, bind.
  rewrite generateRandomChunk_outage by (assumption || lia).
  unfold console_error, write, controller_error, with_console. cbn [state].
  rewrite Hst. reflexivity.
Qed.

End PullStep.

(** ** What the transport can observe *)

Section Transport.
Variable fileSize : Z.

Lemma dispatch_inert (src : UnderlyingSource) ev w :
  state w <> STREAMING -> dispatch src ev w = w.
Proof.
  intros Hst. unfold dispatch. destruct (state w); congruence.
Qed.

Lemma run_inert (src : UnderlyingSource) evs w :
  state w <> STREAMING -> run src evs w = w.
Proof.
  intros Hst. unfold run. induction evs as [|ev evs IH]; [reflexivity|].
  cbn [fold_left]. rewrite dispatch_inert by assumption. exact IH.
Qed.

Lemma dispatch_close w :
  state w = STREAMING -> fileSize <= bytesSent w ->
  dispatch (Download.source fileSize) PullRequested w = with_state CLOSED w.
Proof.
  intros Hst Hge. unfold dispatch. rewrite Hst. cbn [Download.source source_pull].
  rewrite pull_close by assumption. reflexivity.
Qed.

Lemma dispatch_emit w :
  state w = STREAMING -> bytesSent w < fileSize ->
  outage (random w) (drawn w) = false ->
  dispatch (Download.source fileSize) PullRequested w =
    mkWorld (bytesSent w + stepSize fileSize w) STREAMING
      (enqueued w ++
         [map (tape (random w)) (seq (drawn w) (Z.to_nat (stepSize fileSize w)))])
      (random w) (drawn w + Z.to_nat (stepSize fileSize w))%nat (console w).
Proof.
  intros Hst Hlt Hout. unfold dispatch. rewrite Hst.
  cbn [Download.source source_pull].
  rewrite pull_emit by assumption. reflexivity.
Qed.

Lemma dispatch_fail w :
  state w = STREAMING -> bytesSent w < fileSize ->
  outage (random w) (drawn w) = true ->
  dispatch (Download.source fileSize) PullRequested w =
    mkWorld (bytesSent w) (ERRORED OperationError) (enqueued w) (random w) (drawn w)
      (console w ++
         [console_error_line "Error generating or enqueuing chunk:" OperationError]).
Proof.
  intros Hst Hlt Hout. unfold dispatch. rewrite Hst.
  cbn [Download.source source_pull].
  rewrite pull_fail by assumption. reflexivity.
Qed.

Lemma dispatch_cancel w reason :
  state w = STREAMING ->
  dispatch (Download.source fileSize) (CancelRequested reason) w =
    mkWorld (bytesSent w) CANCELLED (enqueued w) (random w) (drawn w)
      (console w ++ [console_log_line ["Download stream cancelled by client."; reason]]).
Proof.
  intros Hst. unfold dispatch. rewrite Hst. reflexivity.
Qed.

Lemma totalBytes_app chunks chunk :
  totalBytes (chunks ++ [chunk]) = totalBytes chunks + byteLength chunk.
Proof.
  unfold totalBytes. induction chunks as [|c cs IH]; cbn [app fold_right]; lia.
Qed.

Lemma byteLength_tape (r : RandomSource) d n :
  0 <= n -> byteLength (map (tape r) (seq d (Z.to_nat n))) = n.
Proof.
  intros Hn. unfold byteLength. rewrite length_map, length_seq. lia.
Qed.

Lemma invariant_init w0 :
  0 <= fileSize -> bytesSent w0 = 0 -> enqueued w0 = [] -> state w0 = STREAMING ->
  Invariant fileSize w0 w0.
Proof.
  intros Hsize Hsent Henq Hst.
  constructor; rewrite ?Henq, ?Hsent; cbn; try constructor; try lia; try congruence.
Qed.

Lemma invariant_dispatch w0 w ev :
  Invariant fileSize w0 w ->
  Invariant fileSize w0 (dispatch (Download.source fileSize) ev w).
Proof.
  intros Inv.
  destruct (state w) eqn:Hst;
    try (rewrite dispatch_inert by congruence; exact Inv).
  destruct ev as [|reason].
  - destruct (Z_lt_le_dec (bytesSent w) fileSize) as [Hlt|Hge].
    + destruct (outage (random w) (drawn w)) eqn:Hout.
      * rewrite dispatch_fail by assumption.
        destruct Inv. constructor; cbn [bytesSent state enqueued random drawn console]; try assumption. congruence.
      * rewrite dispatch_emit by assumption.
        pose proof (stepSize_bounds fileSize w Hlt) as Hn.
        assert (Hmin : stepSize fileSize w <= fileSize - bytesSent w)
          by (unfold stepSize; lia).
        assert (Hlen : byteLength
                  (map (tape (random w)) (seq (drawn w) (Z.to_nat (stepSize fileSize w))))
                = stepSize fileSize w) by (apply byteLength_tape; lia).
        destruct Inv. constructor; cbn [bytesSent state enqueued random drawn console].
        -- lia.
        -- rewrite totalBytes_app, Hlen. lia.
        -- congruence.
        -- rewrite removelast_last. auto.
        -- apply Forall_app. split.
           ++ assumption.
           ++ constructor; [|constructor]. rewrite Hlen.
              unfold Download.chunkSize. lia.
        -- intros Hmore. apply Forall_app. split.
           ++ auto.
           ++ constructor; [|constructor]. rewrite Hlen.
              unfold stepSize in *. lia.
        -- assumption.
        -- rewrite inv_drawn0. rewrite Z2Nat.inj_add by lia. lia.
        -- rewrite concat_app. cbn [List.concat]. rewrite app_nil_r.
           rewrite inv_bytes0, inv_source0, inv_drawn0.
           rewrite Z2Nat.inj_add by lia.
           rewrite seq_app, map_app. reflexivity.
    + rewrite dispatch_close by assumption. unfold with_state.
      destruct Inv.
      constructor; cbn [bytesSent state enqueued random drawn console];
        try assumption.
      intros _. lia.
  - rewrite dispatch_cancel by assumption.
    destruct Inv. constructor; cbn [bytesSent state enqueued random drawn console]; try assumption. congruence.
Qed.

Lemma invariant_run w0 evs w :
  Invariant fileSize w0 w ->
  Invariant fileSize w0 (run (Download.source fileSize) evs w).
Proof.
  revert w. unfold run.
  induction evs as [|ev evs IH]; intros w Inv; cbn [fold_left].
  - exact Inv.
  - apply IH. apply invariant_dispatch. exact Inv.
Qed.

End Transport.

(** ** Parsing and printing sizes *)

Section Parsing.

Lemma parseInt_10 (s : string) :
  parseInt s 10 =
    match digitPrefix 10 (snd (stripSign (trimStart s))) with
    | [] => NaN
    | ds => Num (fst (stripSign (trimStart s)) * mathInt 10 ds)
    end.
Proof.
  unfold parseInt. destruct (stripSign (trimStart s)) as [sign rest].
  reflexivity.
Qed.

Lemma digit_not_blank (c : ascii) :
  isDecimalDigit c = true ->
  isWhiteSpace c = false /\ Ascii.eqb c "-" = false /\ Ascii.eqb c "+" = false.
Proof.
  destruct c as [[] [] [] [] [] [] [] []]; vm_compute; intros H;
    first [discriminate H | repeat split].
Qed.

Lemma digits_unsigned (ds t : string) :
  startsWithDigit ds = true ->
  stripSign (trimStart (ds ++ t)) = (1, (ds ++ t)%string).
Proof.
  destruct ds as [|c r]; [discriminate|]. cbn [startsWithDigit]. intros Hc.
  destruct (digit_not_blank c Hc) as (Hw & Hm & Hp).
  cbn [append trimStart]. rewrite Hw. cbn [stripSign]. rewrite Hm, Hp.
  reflexivity.
Qed.

Lemma digitPrefix_app (ds t : string) :
  decimalDigits ds = true -> startsWithDigit t = false ->
  digitPrefix 10 (ds ++ t) = digitPrefix 10 ds.
Proof.
  intros Hds Ht. induction ds as [|c r IH].
  - destruct t as [|c t]; [reflexivity|].
    cbn [append digitPrefix]. cbn [startsWithDigit] in Ht.
    unfold isDecimalDigit in Ht. destruct (radixDigit 10 c); [discriminate|reflexivity].
  - cbn [decimalDigits] in Hds. apply andb_prop in Hds as [Hc Hr].
    cbn [append digitPrefix]. unfold isDecimalDigit in Hc.
    destruct (radixDigit 10 c); [|discriminate]. rewrite IH by assumption.
    reflexivity.
Qed.

Lemma digitPrefix_nonempty (ds : string) :
  startsWithDigit ds = true -> digitPrefix 10 ds <> [].
Proof.
  destruct ds as [|c r]; [discriminate|]. cbn [startsWithDigit digitPrefix].
  unfold isDecimalDigit. destruct (radixDigit 10 c); [discriminate|discriminate].
Qed.

(** Digits followed by text that is not a digit parse to the digits. *)
Lemma parseInt_prefix (ds t : string) :
  startsWithDigit ds = true -> decimalDigits ds = true ->
  startsWithDigit t = false ->
  parseInt (ds ++ t) 10 = Num (mathInt 10 (digitPrefix 10 ds)).
Proof.
  intros Hne Hds Ht. rewrite parseInt_10, digits_unsigned by assumption.
  cbn [fst snd]. rewrite digitPrefix_app by assumption.
  pose proof (digitPrefix_nonempty ds Hne) as Hnil.
  destruct (digitPrefix 10 ds) as [|d l]; [congruence|].
  f_equal. lia.
Qed.

Lemma string_of_uint_digits (d : Decimal.uint) :
  decimalDigits (NilEmpty.string_of_uint d) = true /\
  digitPrefix 10 (NilEmpty.string_of_uint d) = uintDigits d.
Proof.
  induction d as [|d [IH1 IH2]|d [IH1 IH2]|d [IH1 IH2]|d [IH1 IH2]|d [IH1 IH2]
                  |d [IH1 IH2]|d [IH1 IH2]|d [IH1 IH2]|d [IH1 IH2]|d [IH1 IH2]];
    [split; reflexivity|..];
    (split;
     [cbn [NilEmpty.string_of_uint decimalDigits]; rewrite IH1; reflexivity
     |cbn [NilEmpty.string_of_uint digitPrefix uintDigits]; rewrite IH2; reflexivity]).
Qed.

Lemma mathInt_acc (d : Decimal.uint) (acc : positive) :
  fold_left (fun a x => a * 10 + x) (uintDigits d) (Z.pos acc)
  = Z.pos (Pos.of_uint_acc d acc).
Proof.
  revert acc.
  induction d as [|d IH|d IH|d IH|d IH|d IH|d IH|d IH|d IH|d IH|d IH]; intros acc;
    [reflexivity|..];
    cbn [uintDigits fold_left Pos.of_uint_acc]; rewrite <- IH; f_equal; lia.
Qed.

Lemma mathInt_uint (d : Decimal.uint) :
  mathInt 10 (uintDigits d) = Z.of_N (Pos.of_uint d).
Proof.
  unfold mathInt.
  induction d as [|d IH|d IH|d IH|d IH|d IH|d IH|d IH|d IH|d IH|d IH];
    [reflexivity | exact IH | ..];
    cbn [uintDigits fold_left Pos.of_uint Z.of_N];
    rewrite <- mathInt_acc; reflexivity.
Qed.

Lemma toString_pos (p : positive) :
  toString (Z.pos p) = NilEmpty.string_of_uint (Pos.to_uint p).
Proof.
  unfold toString. cbn [Z.to_int NilZero.string_of_int].
  unfold NilZero.string_of_uint.
  pose proof (DecimalPos.Unsigned.to_uint_nonnil p) as Hnil.
  destruct (Pos.to_uint p); [congruence|reflexivity..].
Qed.

Lemma toString_starts (p : positive) :
  startsWithDigit (toString (Z.pos p)) = true.
Proof.
  rewrite toString_pos.
  pose proof (DecimalPos.Unsigned.to_uint_nonnil p) as Hnil.
  destruct (Pos.to_uint p); [congruence|reflexivity..].
Qed.

(** A positive size printed in decimal, possibly followed by text that
    is not a digit, parses back to itself. *)
Lemma parseInt_toString (n : Z) (t : string) :
  0 < n -> startsWithDigit t = false ->
  parseInt (toString n ++ t) 10 = Num n.
Proof.
  intros Hn Ht. destruct n as [|p|p]; try lia.
  rewrite parseInt_prefix; try assumption.
  - rewrite toString_pos.
    destruct (string_of_uint_digits (Pos.to_uint p)) as [_ ->].
    rewrite mathInt_uint, DecimalPos.Unsigned.of_to. reflexivity.
  - apply toString_starts.
  - rewrite toString_pos. apply string_of_uint_digits.
Qed.

End Parsing.

(** ** The request handlers *)

Section Handlers.

Lemma world_eta (w : World) :
  mkWorld (bytesSent w) (state w) (enqueued w) (random w) (drawn w) (console w) = w.
Proof. destruct w; reflexivity. Qed.

Lemma specResolvedSize_bounds (raw : option string) :
  Download.MIN_FILE_SIZE_BYTES <= specResolvedSize raw <= Download.MAX_FILE_SIZE_BYTES.
Proof.
  assert (Hdefault : Download.MIN_FILE_SIZE_BYTES <= Download.DEFAULT_FILE_SIZE_BYTES
                     <= Download.MAX_FILE_SIZE_BYTES) by (vm_compute; split; discriminate).
  unfold specResolvedSize. destruct raw as [text|]; [|exact Hdefault].
  destruct (parseInt text 10) as [|n]; [exact Hdefault|].
  destruct (Z.leb_spec Download.MIN_FILE_SIZE_BYTES n);
    destruct (Z.leb_spec n Download.MAX_FILE_SIZE_BYTES); cbn [andb];
    first [exact Hdefault | lia].
Qed.

Lemma resolveFileSize_run (raw : option string) (w : World) :
  Download.resolveFileSize raw w =
    (Normal (specResolvedSize raw),
     mkWorld (bytesSent w) (state w) (enqueued w) (random w) (drawn w)
       (console w ++ validatorLog raw)).
Proof.
  unfold Download.resolveFileSize, specResolvedSize, validatorLog.
  destruct raw as [[|c r]|]; cbn [truthy ToString].
  - unfold ret. rewrite app_nil_r, world_eta. reflexivity.
  - destruct (parseInt (String c r) 10) as [|n].
    + reflexivity.
    + rewrite Z.geb_leb.
      destruct ((Download.MIN_FILE_SIZE_BYTES <=? n) && (n <=? Download.MAX_FILE_SIZE_BYTES)).
      * unfold ret. rewrite app_nil_r, world_eta. reflexivity.
      * reflexivity.
  - unfold ret. rewrite app_nil_r, world_eta. reflexivity.
Qed.

Lemma downloadHeaders_literal (contentLength : string) :
  objectLiteral Download.corsHeaders
    [("Content-Type", "application/octet-stream");
     ("Content-Length", contentLength);
     ("Cache-Control", "no-store, no-cache, must-revalidate, max-age=0");
     ("Pragma", "no-cache")]
  = [("Access-Control-Allow-Origin", "*");
     ("Access-Control-Allow-Methods", "GET, OPTIONS");
     ("Access-Control-Allow-Headers", "Content-Type");
     ("Content-Type", "application/octet-stream");
     ("Content-Length", contentLength);
     ("Cache-Control", "no-store, no-cache, must-revalidate, max-age=0");
     ("Pragma", "no-cache")].
Proof. reflexivity. Qed.

(** What [onRequestGet] returns and the world it leaves, for every
    request and every world. *)
Lemma onRequestGet_run (context : Context) (w : World) :
  Download.onRequestGet context w =
    (Normal
       (mkResponse
          (Some (stream_of (Download.source (specResolvedSize (searchParams_get "size" context)))))
          200
          (downloadHeaders (specResolvedSize (searchParams_get "size" context)))),
     streamStart (random w) (drawn w)
       (console w ++ validatorLog (searchParams_get "size" context))).
Proof.
  unfold Download.onRequestGet, bind at 1. rewrite resolveFileSize_run.
  unfold bind, write, new_ReadableStream, bind, write, ret, new_Response.
  cbn [init_status init_headers]. rewrite downloadHeaders_literal.
  reflexivity.
Qed.

Lemma invariant_start (fileSize : Z) r position log :
  0 <= fileSize ->
  Invariant fileSize (streamStart r position log) (streamStart r position log).
Proof.
  intros Hsize. apply invariant_init; [assumption|reflexivity..].
Qed.

End Handlers.

(** ** Draining the stream *)

Section Drain.
Variable fileSize : Z.

Lemma run_cons (src : UnderlyingSource) ev evs w :
  run src (ev :: evs) w = run src evs (dispatch src ev w).
Proof. reflexivity. Qed.

Lemma run_app (src : UnderlyingSource) evs1 evs2 w :
  run src (evs1 ++ evs2) w = run src evs2 (run src evs1 w).
Proof. unfold run. apply fold_left_app. Qed.

Lemma run_pulls_streaming (j : nat) :
  forall w,
    state w = STREAMING -> reliable (random w) ->
    bytesSent w <= fileSize ->
    bytesSent w + Z.of_nat j * 65536 < fileSize + 65536 ->
    let w' := run (Download.source fileSize) (pulls j) w in
    state w' = STREAMING /\
    bytesSent w' = Z.min (bytesSent w + Z.of_nat j * 65536) fileSize /\
    List.length (enqueued w') = (List.length (enqueued w) + j)%nat /\
    random w' = random w.
Proof.
  induction j as [|j IH]; intros w Hst Hrel Hle Hroom.
  - cbn. repeat split; try assumption; lia.
  - assert (Hlt : bytesSent w < fileSize) by lia.
    change (pulls (S j)) with (PullRequested :: pulls j).
    rewrite run_cons.
    rewrite dispatch_emit by (assumption || apply Hrel).
    set (w1 := mkWorld _ _ _ _ _ _).
    assert (Hstep : stepSize fileSize w = Z.min 65536 (fileSize - bytesSent w))
      by reflexivity.
    destruct (IH w1) as (H1 & H2 & H3 & H4).
    + reflexivity.
    + exact Hrel.
    + subst w1. cbn [bytesSent]. lia.
    + subst w1. cbn [bytesSent]. lia.
    + cbv zeta. repeat split.
      * exact H1.
      * rewrite H2. subst w1. cbn [bytesSent]. lia.
      * rewrite H3. subst w1. cbn [enqueued]. rewrite length_app. cbn. lia.
      * rewrite H4. reflexivity.
Qed.

Lemma chunkCount_bounds :
  0 < fileSize ->
  0 < chunkCount fileSize /\
  (chunkCount fileSize - 1) * 65536 < fileSize <= chunkCount fileSize * 65536.
Proof.
  intros Hpos. unfold chunkCount, Download.chunkSize.
  replace (64 * 1024) with 65536 by reflexivity.
  pose proof (Z.div_mod (fileSize + 65536 - 1) 65536 ltac:(lia)) as Hdiv.
  pose proof (Z.mod_pos_bound (fileSize + 65536 - 1) 65536 ltac:(lia)) as Hmod.
  lia.
Qed.

(** With a reliable source the stream is still readable after [j]
    pulls for every [j] up to the chunk count, having emitted [j]
    chunks. *)
Lemma run_pulls_upto (r : RandomSource) position log (j : nat) :
  0 < fileSize -> reliable r ->
  Z.of_nat j <= chunkCount fileSize ->
  let w := run (Download.source fileSize) (pulls j) (streamStart r position log) in
  state w = STREAMING /\
  bytesSent w = Z.min (Z.of_nat j * 65536) fileSize /\
  List.length (enqueued w) = j.
Proof.
  intros Hpos Hrel Hj. pose proof (chunkCount_bounds Hpos) as (Hk & Hlo & Hhi).
  destruct (run_pulls_streaming j (streamStart r position log)) as (H1 & H2 & H3 & _);
    try reflexivity; try exact Hrel; cbn [streamStart bytesSent]; try lia.
  cbv zeta. repeat split; assumption.
Qed.

Lemma run_pulls_beyond (r : RandomSource) position log (j : nat) :
  0 < fileSize -> reliable r ->
  chunkCount fileSize < Z.of_nat j ->
  let w := run (Download.source fileSize) (pulls j) (streamStart r position log) in
  state w = CLOSED /\
  bytesSent w = fileSize /\
  List.length (enqueued w) = Z.to_nat (chunkCount fileSize).
Proof.
  intros Hpos Hrel Hj. pose proof (chunkCount_bounds Hpos) as (Hk & Hlo & Hhi).
  set (k := Z.to_nat (chunkCount fileSize)).
  replace j with (k + (1 + (j - k - 1)))%nat by lia.
  unfold pulls. rewrite !repeat_app, !run_app.
  fold (pulls k).
  destruct (run_pulls_upto r position log k Hpos Hrel) as (H1 & H2 & H3); [lia|].
  set (wk := run (Download.source fileSize) (pulls k) (streamStart r position log)) in *.
  assert (Hfull : bytesSent wk = fileSize) by (rewrite H2; lia).
  change (repeat PullRequested 1) with [PullRequested].
  change (run (Download.source fileSize) [PullRequested] wk)
    with (dispatch (Download.source fileSize) PullRequested wk).
  rewrite dispatch_close by (assumption || lia).
  rewrite run_inert by (unfold with_state; cbn; discriminate).
  unfold with_state; cbn [state bytesSent enqueued]. repeat split; assumption.
Qed.

End Drain.

(** ** The size validator *)

Section Validator.

Lemma resolveFileSize_value (raw : option string) (w : World) :
  completion (Download.resolveFileSize raw) w = Normal (specResolvedSize raw).
Proof.
  unfold completion. rewrite resolveFileSize_run. reflexivity.
Qed.

Lemma specResolvedSize_in_bounds (text : string) (n : Z) :
  parseInt text 10 = Num n ->
  Download.MIN_FILE_SIZE_BYTES <= n <= Download.MAX_FILE_SIZE_BYTES ->
  specResolvedSize (Some text) = n /\ validatorLog (Some text) = [].
Proof.
  intros Hparse [Hlo Hhi].
  assert (Htext : exists c r, text = String c r).
  { destruct text as [|c r]; [discriminate Hparse|eauto]. }
  destruct Htext as (c & r & ->).
  unfold specResolvedSize, validatorLog. rewrite Hparse.
  destruct (Z.leb_spec Download.MIN_FILE_SIZE_BYTES n); [|lia].
  destruct (Z.leb_spec n Download.MAX_FILE_SIZE_BYTES); [|lia].
  split; reflexivity.
Qed.

Lemma resolveFileSize_accepts (text : string) (n : Z) (w : World) :
  parseInt text 10 = Num n ->
  Download.MIN_FILE_SIZE_BYTES <= n <= Download.MAX_FILE_SIZE_BYTES ->
  Download.resolveFileSize (Some text) w = (Normal n, w).
Proof.
  intros Hparse Hn. rewrite resolveFileSize_run.
  destruct (specResolvedSize_in_bounds text n Hparse Hn) as [-> ->].
  rewrite app_nil_r, world_eta. reflexivity.
Qed.

End Validator.

(** C2.  The validator computes what the specification describes: the
    default for an absent value, a value that does not parse, or one
    that parses outside the inclusive bounds, and the parsed value
    otherwise.  The two bounds resolve to themselves, the maximum plus
    one resolves to the default, and every request is answered with
    status 200 and the resolved size as its Content-Length. *)
Theorem size_validator_follows_spec :
  (forall raw w,
      completion (Download.resolveFileSize raw) w = Normal (specResolvedSize raw)) /\
  (forall w,
      completion (Download.resolveFileSize
                    (Some (toString Download.MIN_FILE_SIZE_BYTES))) w
      = Normal Download.MIN_FILE_SIZE_BYTES) /\
  (forall w,
      completion (Download.resolveFileSize
                    (Some (toString Download.MAX_FILE_SIZE_BYTES))) w
      = Normal Download.MAX_FILE_SIZE_BYTES) /\
  (forall w,
      completion (Download.resolveFileSize
                    (Some (toString (Download.MAX_FILE_SIZE_BYTES + 1)))) w
      = Normal Download.DEFAULT_FILE_SIZE_BYTES) /\
  (forall context w,
      exists response w',
        Download.onRequestGet context w = (Normal response, w') /\
        status response = 200 /\
        getProperty "Content-Length" (headers response)
        = Some (toString (specResolvedSize (searchParams_get "size" context)))).
Proof.
  split; [exact resolveFileSize_value|].
  split; [|split; [|split]].
  - intros w. rewrite resolveFileSize_value. reflexivity.
  - intros w. rewrite resolveFileSize_value. reflexivity.
  - intros w. rewrite resolveFileSize_value. reflexivity.
  - intros context w. rewrite onRequestGet_run.
    eexists. eexists. split; [reflexivity|]. split; reflexivity.
Qed.

(** C10.  A size made of decimal digits followed by text that does not
    start with a digit resolves to the number the digits denote when
    that number is within the bounds, as ["1048576abc"] does; a present
    but empty size is not truthy, so it resolves to the default without
    being parsed and without the console line that a value failing to
    parse leaves.  The Content-Length of the response shows both. *)
Theorem size_validator_edge_cases :
  (forall ds t w,
      startsWithDigit ds = true -> decimalDigits ds = true ->
      startsWithDigit t = false ->
      Download.MIN_FILE_SIZE_BYTES <= decimalValue ds <= Download.MAX_FILE_SIZE_BYTES ->
      Download.resolveFileSize (Some (ds ++ t)%string) w = (Normal (decimalValue ds), w)) /\
  (forall w,
      Download.resolveFileSize (Some "1048576abc") w = (Normal 1048576, w) /\
      exists response start,
        Download.onRequestGet (requestWithSize "1048576abc") w = (Normal response, start) /\
        getProperty "Content-Length" (headers response) = Some "1048576" /\
        console start = console w) /\
  truthy (Some "") = false /\
  (forall w,
      Download.resolveFileSize (Some "") w
      = (Normal Download.DEFAULT_FILE_SIZE_BYTES, w) /\
      exists response start,
        Download.onRequestGet (requestWithSize "") w = (Normal response, start) /\
        getProperty "Content-Length" (headers response) = Some "10485760" /\
        console start = console w) /\
  (forall w,
      Download.resolveFileSize (Some "abc") w
      = (Normal Download.DEFAULT_FILE_SIZE_BYTES,
         with_console (console w ++ [fallbackLine "abc"]) w)).
Proof.
  split; [|split; [|split; [|split]]].
  - intros ds t w Hne Hds Ht Hn.
    apply resolveFileSize_accepts; [|exact Hn].
    apply parseInt_prefix; assumption.
  - intros w. split.
    + apply resolveFileSize_accepts; [reflexivity|].
      vm_compute. split; discriminate.
    + rewrite onRequestGet_run. eexists. eexists.
      split; [reflexivity|]. split; [reflexivity|].
      cbn [streamStart console]. apply app_nil_r.
  - reflexivity.
  - intros w. split; [reflexivity|].
    rewrite onRequestGet_run. eexists. eexists.
    split; [reflexivity|]. split; [reflexivity|].
    cbn [streamStart console]. apply app_nil_r.
  - intros w. reflexivity.
Qed.

Lemma size_validator_edge_cases_witness :
  Download.resolveFileSize (Some ("0002048" ++ "px")%string) (idleWorld countingSource)
  = (Normal 2048, idleWorld countingSource).
Proof.
  apply (proj1 size_validator_edge_cases "0002048" "px" (idleWorld countingSource)).
  - reflexivity.
  - reflexivity.
  - reflexivity.
  - vm_compute. split; discriminate.
Defined.

(** ** The stream cursor *)

Section Cursor.
Variable fileSize : Z.

Lemma dispatch_pull_outcome (w : World) :
  PullOutcome fileSize w (dispatch (Download.source fileSize) PullRequested w).
Proof.
  destruct (state w) eqn:Hst;
    try (rewrite dispatch_inert by congruence; apply pull_ignored; congruence).
  destruct (Z_lt_le_dec (bytesSent w) fileSize) as [Hlt|Hge].
  - destruct (outage (random w) (drawn w)) eqn:Hout.
    + rewrite dispatch_fail by assumption. apply pull_errors; assumption.
    + rewrite dispatch_emit by assumption. apply pull_emits; assumption.
  - rewrite dispatch_close by assumption. apply pull_closes; assumption.
Qed.

Lemma not_self_extending {A} (l : list A) (a : A) : l <> l ++ [a].
Proof.
  intros H. apply (f_equal (@List.length A)) in H.
  rewrite length_app in H. cbn in H. lia.
Qed.

(** A pull leaves queue and cursor alone, or appends one chunk and
    advances the cursor by that chunk's length. *)
Lemma pull_accounting (w : World) :
  let w' := dispatch (Download.source fileSize) PullRequested w in
  (enqueued w' = enqueued w /\ bytesSent w' = bytesSent w) \/
  (exists chunk,
      enqueued w' = enqueued w ++ [chunk] /\
      bytesSent w' = bytesSent w + byteLength chunk /\
      byteLength chunk = Z.min Download.chunkSize (fileSize - bytesSent w) /\
      chunk = map (tape (random w)) (seq (drawn w) (List.length chunk)) /\
      drawn w' = (drawn w + List.length chunk)%nat).
Proof.
  cbv zeta.
  destruct (dispatch_pull_outcome w) as [Hst|Hst Hge|Hst Hlt Hout|Hst Hlt Hout].
  - left. split; reflexivity.
  - left. split; reflexivity.
  - left. split; reflexivity.
  - right. pose proof (stepSize_bounds fileSize w Hlt) as Hn.
    eexists. cbn [enqueued bytesSent drawn].
    split; [reflexivity|].
    rewrite byteLength_tape by lia. rewrite length_map, length_seq.
    repeat split; reflexivity.
Qed.

Lemma pull_closes_iff (w0 w : World) :
  Invariant fileSize w0 w -> state w = STREAMING ->
  state (dispatch (Download.source fileSize) PullRequested w) = CLOSED
  <-> bytesSent w = fileSize.
Proof.
  intros Inv Hst.
  destruct (dispatch_pull_outcome w) as [Hno|_ Hge|_ Hlt Hout|_ Hlt Hout].
  - congruence.
  - destruct Inv. unfold with_state; cbn [state]. split; [lia|reflexivity].
  - cbn [state]. split; [discriminate|lia].
  - cbn [state]. split; [discriminate|lia].
Qed.

End Cursor.

(** C3.  Every request leaves the cursor at zero.  For a stream of
    [fileSize] bytes the cursor stays within [0, fileSize] before and
    after every pull, whatever the transport did before; a pull that
    enqueues a chunk advances the cursor by exactly that chunk's length
    and any other pull leaves it alone; and a pull on the readable
    stream closes it exactly when the cursor equals [fileSize]. *)
Theorem cursor_invariant (fileSize : Z) (r : RandomSource) (position : nat)
    (log : list LogLine) (history : list Event) :
  Download.MIN_FILE_SIZE_BYTES <= fileSize <= Download.MAX_FILE_SIZE_BYTES ->
  let start := streamStart r position log in
  let before := run (Download.source fileSize) history start in
  let after := dispatch (Download.source fileSize) PullRequested before in
  (forall context w, bytesSent (worldAfter (Download.onRequestGet context) w) = 0) /\
  bytesSent start = 0 /\
  0 <= bytesSent before <= fileSize /\
  0 <= bytesSent after <= fileSize /\
  ((enqueued after = enqueued before /\ bytesSent after = bytesSent before) \/
   (exists chunk,
       enqueued after = enqueued before ++ [chunk] /\
       bytesSent after = bytesSent before + byteLength chunk)) /\
  (state before = STREAMING ->
   (state after = CLOSED <-> bytesSent before = fileSize)) /\
  (state before <> STREAMING -> after = before).
Proof.
  intros Hsize start before after.
  assert (Hpos : 0 <= fileSize) by (unfold Download.MIN_FILE_SIZE_BYTES in Hsize; lia).
  assert (Inv : Invariant fileSize start before)
    by (apply invariant_run, invariant_start; exact Hpos).
  assert (Inv' : Invariant fileSize start after)
    by (apply invariant_dispatch; exact Inv).
  split.
  { intros context w. unfold worldAfter. rewrite onRequestGet_run. reflexivity. }
  split; [reflexivity|].
  split; [apply Inv|].
  split; [apply Inv'|].
  split.
  - destruct (pull_accounting fileSize before) as [Hsame|(chunk & Henq & Hsent & _)].
    + left. exact Hsame.
    + right. exists chunk. split; assumption.
  - split.
    + intros Hst. apply pull_closes_iff with (w0 := start); assumption.
    + intros Hst. apply dispatch_inert. exact Hst.
Qed.

Lemma cursor_invariant_witness :
  let start := streamStart countingSource 0 [] in
  let before := run (Download.source 1024) [] start in
  let after := dispatch (Download.source 1024) PullRequested before in
  (forall context w, bytesSent (worldAfter (Download.onRequestGet context) w) = 0) /\
  bytesSent start = 0 /\
  0 <= bytesSent before <= 1024 /\
  0 <= bytesSent after <= 1024 /\
  ((enqueued after = enqueued before /\ bytesSent after = bytesSent before) \/
   (exists chunk,
       enqueued after = enqueued before ++ [chunk] /\
       bytesSent after = bytesSent before + byteLength chunk)) /\
  (state before = STREAMING ->
   (state after = CLOSED <-> bytesSent before = 1024)) /\
  (state before <> STREAMING -> after = before).
Proof.
  apply (cursor_invariant 1024 countingSource 0 [] []).
  vm_compute. split; discriminate.
Defined.

(** ** Generation failures *)

(** C4.  When the chunk generator throws during a pull on the readable
    stream, [pull] catches the failure and hands it to the controller:
    the stream becomes [ERRORED] with that failure, the cursor and the
    queue are as before, the console holds the error line, and nothing
    the transport does afterwards changes the world again; in
    particular the stream is never [CLOSED].  Whatever happens, a
    stream that is [CLOSED] has enqueued all of its [fileSize] bytes. *)
Theorem generation_failure_errors_stream (fileSize : Z) (w : World) (e : Error)
    (future : list Event) :
  state w = STREAMING ->
  bytesSent w < fileSize ->
  completion (Download.generateRandomChunk (stepSize fileSize w)) w = Throw e ->
  let w' := dispatch (Download.source fileSize) PullRequested w in
  completion (Download.pull fileSize) w = Normal tt /\
  worldAfter (Download.pull fileSize) w = w' /\
  state w' = ERRORED e /\
  bytesSent w' = bytesSent w /\
  enqueued w' = enqueued w /\
  drawn w' = drawn w /\
  console w' =
    console w ++ [console_error_line "Error generating or enqueuing chunk:" e] /\
  run (Download.source fileSize) future w' = w' /\
  state (run (Download.source fileSize) future w') <> CLOSED /\
  (forall r position log history,
      0 <= fileSize ->
      let reached := run (Download.source fileSize) history (streamStart r position log) in
      state reached = CLOSED -> totalBytes (enqueued reached) = fileSize).
Proof.
  intros Hst Hlt Hthrow w'.
  pose proof (stepSize_bounds fileSize w Hlt) as Hn.
  destruct (generateRandomChunk_throws (stepSize fileSize w) w e) as [Hout ->];
    [lia|exact Hthrow|].
  assert (Hw' : w' = mkWorld (bytesSent w) (ERRORED OperationError) (enqueued w)
                       (random w) (drawn w)
                       (console w ++
                          [console_error_line "Error generating or enqueuing chunk:"
                             OperationError]))
    by (apply dispatch_fail; assumption).
  unfold completion, worldAfter. rewrite pull_fail by assumption.
  rewrite Hw'. cbn [fst snd state bytesSent enqueued drawn console].
  assert (Hinert : forall w1, state w1 = ERRORED OperationError ->
                              run (Download.source fileSize) future w1 = w1)
    by (intros w1 H1; apply run_inert; rewrite H1; discriminate).
  do 7 (split; [reflexivity|]).
  split; [apply Hinert; reflexivity|].
  split.
  - rewrite Hinert by reflexivity. cbn [state]. discriminate.
  - intros r position log history Hsize Hclosed.
    assert (Inv : Invariant fileSize (streamStart r position log)
                    (run (Download.source fileSize) history (streamStart r position log)))
      by (apply invariant_run, invariant_start; exact Hsize).
    rewrite (inv_total _ _ _ Inv). exact (inv_closed _ _ _ Inv Hclosed).
Qed.

Lemma generation_failure_errors_stream_witness :
  let w := streamStart brokenSource 0 [] in
  let w' := dispatch (Download.source 1024) PullRequested w in
  completion (Download.pull 1024) w = Normal tt /\
  worldAfter (Download.pull 1024) w = w' /\
  state w' = ERRORED OperationError /\
  bytesSent w' = bytesSent w /\
  enqueued w' = enqueued w /\
  drawn w' = drawn w /\
  console w' =
    console w ++
      [console_error_line "Error generating or enqueuing chunk:" OperationError] /\
  run (Download.source 1024) [PullRequested] w' = w' /\
  state (run (Download.source 1024) [PullRequested] w') <> CLOSED /\
  (forall r position log history,
      0 <= 1024 ->
      let reached := run (Download.source 1024) history (streamStart r position log) in
      state reached = CLOSED -> totalBytes (enqueued reached) = 1024).
Proof.
  apply (generation_failure_errors_stream 1024 (streamStart brokenSource 0 [])
           OperationError [PullRequested]).
  - reflexivity.
  - reflexivity.
  - vm_compute. reflexivity.
Defined.

(** ** Chunk lengths *)

(** C5.  In every world the stream can reach, a chunk handed to the
    controller by a pull has length [min(chunkSize, fileSize -
    bytesSent)] computed from the cursor before that pull; every chunk
    enqueued so far holds between 1 and 65536 bytes; all chunks but the
    last hold exactly [chunkSize] bytes, and as long as the cursor is
    short of [fileSize] so does the last: a chunk of another length is
    the last one of a stream whose cursor has reached [fileSize]. *)
Theorem chunk_lengths (fileSize : Z) (r : RandomSource) (position : nat)
    (log : list LogLine) (history : list Event) :
  Download.MIN_FILE_SIZE_BYTES <= fileSize <= Download.MAX_FILE_SIZE_BYTES ->
  let before := run (Download.source fileSize) history (streamStart r position log) in
  let after := dispatch (Download.source fileSize) PullRequested before in
  Download.chunkSize = 65536 /\
  (forall chunk,
      enqueued after = enqueued before ++ [chunk] ->
      byteLength chunk = Z.min Download.chunkSize (fileSize - bytesSent before)) /\
  Forall (fun chunk => 1 <= byteLength chunk <= Download.chunkSize) (enqueued before) /\
  Forall (fun chunk => byteLength chunk = Download.chunkSize)
    (removelast (enqueued before)) /\
  (bytesSent before < fileSize ->
   Forall (fun chunk => byteLength chunk = Download.chunkSize) (enqueued before)) /\
  (forall chunk,
      In chunk (enqueued before) -> byteLength chunk <> Download.chunkSize ->
      bytesSent before = fileSize /\
      exists front, enqueued before = front ++ [chunk]).
Proof.
  intros Hsize before after.
  assert (Hpos : 0 <= fileSize) by (unfold Download.MIN_FILE_SIZE_BYTES in Hsize; lia).
  assert (Inv : Invariant fileSize (streamStart r position log) before)
    by (apply invariant_run, invariant_start; exact Hpos).
  split; [reflexivity|].
  split.
  - intros chunk Henq.
    destruct (pull_accounting fileSize before) as [[Hsame _]|(c & Hc & _ & Hlen & _)].
    + fold after in Hsame. rewrite Hsame in Henq.
      exfalso. exact (not_self_extending _ _ Henq).
    + fold after in Hc. rewrite Hc in Henq.
      apply app_inj_tail in Henq as [_ ->]. exact Hlen.
  - destruct Inv as [Hcursor _ _ Hfull Hbounded Hunfinished _ _ _].
    split; [assumption|]. split; [assumption|]. split; [assumption|].
    intros chunk Hin Hshort. split.
    + destruct (Z_lt_le_dec (bytesSent before) fileSize) as [Hlt|Hge]; [|lia].
      exfalso. apply Hshort.
      exact (proj1 (Forall_forall _ _) (Hunfinished Hlt) chunk Hin).
    + destruct (enqueued before) as [|c0 cs] eqn:Henq; [destruct Hin|].
      assert (Hne : c0 :: cs <> []) by discriminate.
      pose proof (app_removelast_last c0 Hne) as Hsplit.
      rewrite Hsplit in Hin. apply in_app_or in Hin as [Hfront|[Hlast|[]]].
      * exfalso. apply Hshort.
        exact (proj1 (Forall_forall _ _) Hfull chunk Hfront).
      * exists (removelast (c0 :: cs)). rewrite <- Hlast. exact Hsplit.
Qed.

Lemma chunk_lengths_witness :
  let before := run (Download.source 1024) [] (streamStart countingSource 0 []) in
  let after := dispatch (Download.source 1024) PullRequested before in
  Download.chunkSize = 65536 /\
  (forall chunk,
      enqueued after = enqueued before ++ [chunk] ->
      byteLength chunk = Z.min Download.chunkSize (1024 - bytesSent before)) /\
  Forall (fun chunk => 1 <= byteLength chunk <= Download.chunkSize) (enqueued before) /\
  Forall (fun chunk => byteLength chunk = Download.chunkSize)
    (removelast (enqueued before)) /\
  (bytesSent before < 1024 ->
   Forall (fun chunk => byteLength chunk = Download.chunkSize) (enqueued before)) /\
  (forall chunk,
      In chunk (enqueued before) -> byteLength chunk <> Download.chunkSize ->
      bytesSent before = 1024 /\
      exists front, enqueued before = front ++ [chunk]).
Proof.
  apply (chunk_lengths 1024 countingSource 0 [] []).
  vm_compute. split; discriminate.
Defined.

(** ** Termination *)

(** C7.  With a source that does not fail and a transport that only
    pulls, a stream of [fileSize] bytes within the bounds takes
    [chunkCount fileSize], the ceiling of [fileSize / chunkSize], pulls
    that each emit a chunk; the stream is readable up to there, the
    cursor then equals [fileSize], and from the next pull on the stream
    is [CLOSED] with exactly that many chunks. *)
Theorem stream_is_finite (fileSize : Z) (r : RandomSource) (position : nat)
    (log : list LogLine) :
  Download.MIN_FILE_SIZE_BYTES <= fileSize <= Download.MAX_FILE_SIZE_BYTES ->
  reliable r ->
  let after n := run (Download.source fileSize) (pulls n) (streamStart r position log) in
  let k := Z.to_nat (chunkCount fileSize) in
  (chunkCount fileSize - 1) * Download.chunkSize < fileSize
    <= chunkCount fileSize * Download.chunkSize /\
  (forall j, (j < k)%nat ->
             state (after j) = STREAMING /\
             bytesSent (after j) < fileSize /\
             List.length (enqueued (after j)) = j /\
             List.length (enqueued (after (S j))) = S j) /\
  (state (after k) = STREAMING /\
   bytesSent (after k) = fileSize /\
   List.length (enqueued (after k)) = k) /\
  (forall j, (k < j)%nat ->
             state (after j) = CLOSED /\
             totalBytes (enqueued (after j)) = fileSize /\
             List.length (enqueued (after j)) = k).
Proof.
  intros Hsize Hrel after k.
  assert (Hpos : 0 < fileSize) by (unfold Download.MIN_FILE_SIZE_BYTES in Hsize; lia).
  pose proof (chunkCount_bounds fileSize Hpos) as (Hk & Hlo & Hhi).
  change Download.chunkSize with 65536.
  split; [lia|]. split; [|split].
  - intros j Hj.
    destruct (run_pulls_upto fileSize r position log j Hpos Hrel) as (H1 & H2 & H3);
      [lia|].
    destruct (run_pulls_upto fileSize r position log (S j) Hpos Hrel) as (_ & _ & H4);
      [lia|].
    repeat split; try assumption. fold (after j) in H2. rewrite H2. lia.
  - destruct (run_pulls_upto fileSize r position log k Hpos Hrel) as (H1 & H2 & H3);
      [lia|].
    repeat split; try assumption. fold (after k) in H2. rewrite H2. lia.
  - intros j Hj.
    destruct (run_pulls_beyond fileSize r position log j Hpos Hrel) as (H1 & H2 & H3);
      [lia|].
    assert (Inv : Invariant fileSize (streamStart r position log) (after j))
      by (apply invariant_run, invariant_start; lia).
    repeat split; try assumption.
    rewrite (inv_total _ _ _ Inv). exact H2.
Qed.

Lemma stream_is_finite_witness :
  let after n := run (Download.source 1024) (pulls n) (streamStart countingSource 0 []) in
  let k := Z.to_nat (chunkCount 1024) in
  (chunkCount 1024 - 1) * Download.chunkSize < 1024
    <= chunkCount 1024 * Download.chunkSize /\
  (forall j, (j < k)%nat ->
             state (after j) = STREAMING /\
             bytesSent (after j) < 1024 /\
             List.length (enqueued (after j)) = j /\
             List.length (enqueued (after (S j))) = S j) /\
  (state (after k) = STREAMING /\
   bytesSent (after k) = 1024 /\
   List.length (enqueued (after k)) = k) /\
  (forall j, (k < j)%nat ->
             state (after j) = CLOSED /\
             totalBytes (enqueued (after j)) = 1024 /\
             List.length (enqueued (after j)) = k).
Proof.
  apply (stream_is_finite 1024 countingSource 0 []).
  - vm_compute. split; discriminate.
  - intros p. reflexivity.
Defined.

(** ** Cancellation *)

(** C8.  When the consumer cancels a readable stream, the cancel
    callback writes its console line and nothing else: the stream is
    left [CANCELLED] with the cursor, the queue and the position of the
    random source as they were, and whatever the transport requests
    afterwards leaves the world exactly as the cancel left it. *)
Theorem cancel_stops_production (fileSize : Z) (w : World) (reason : string)
    (future : list Event) :
  state w = STREAMING ->
  let handled := worldAfter (Download.cancel reason) w in
  let cancelled := dispatch (Download.source fileSize) (CancelRequested reason) w in
  (bytesSent handled = bytesSent w /\ enqueued handled = enqueued w /\
   drawn handled = drawn w /\ state handled = state w) /\
  state cancelled = CANCELLED /\
  bytesSent cancelled = bytesSent w /\
  enqueued cancelled = enqueued w /\
  drawn cancelled = drawn w /\
  console cancelled =
    console w ++ [console_log_line ["Download stream cancelled by client."; reason]] /\
  run (Download.source fileSize) future cancelled = cancelled.
Proof.
  intros Hst handled cancelled.
  split; [repeat split; reflexivity|].
  assert (Hc : cancelled =
               mkWorld (bytesSent w) CANCELLED (enqueued w) (random w) (drawn w)
                 (console w ++
                    [console_log_line ["Download stream cancelled by client."; reason]]))
    by (apply dispatch_cancel; exact Hst).
  rewrite Hc. cbn [state bytesSent enqueued drawn console].
  repeat split; try reflexivity.
  apply run_inert. cbn [state]. discriminate.
Qed.

Lemma cancel_stops_production_witness :
  let w := streamStart countingSource 0 [] in
  let handled := worldAfter (Download.cancel "gone") w in
  let cancelled := dispatch (Download.source 1024) (CancelRequested "gone") w in
  (bytesSent handled = bytesSent w /\ enqueued handled = enqueued w /\
   drawn handled = drawn w /\ state handled = state w) /\
  state cancelled = CANCELLED /\
  bytesSent cancelled = bytesSent w /\
  enqueued cancelled = enqueued w /\
  drawn cancelled = drawn w /\
  console cancelled =
    console w ++ [console_log_line ["Download stream cancelled by client."; "gone"]] /\
  run (Download.source 1024) [PullRequested; PullRequested] cancelled = cancelled.
Proof.
  apply (cancel_stops_production 1024 (streamStart countingSource 0 []) "gone"
           [PullRequested; PullRequested]).
  reflexivity.
Defined.

(** ** Declared length and delivered bytes *)

Lemma resolved_size_prints_back (n : Z) :
  Download.MIN_FILE_SIZE_BYTES <= n <= Download.MAX_FILE_SIZE_BYTES ->
  parseInt (toString n) 10 = Num n /\
  specResolvedSize (Some (toString n)) = n.
Proof.
  intros Hn.
  assert (Hparse : parseInt (toString n) 10 = Num n).
  { assert (Hpos : 0 < n) by (unfold Download.MIN_FILE_SIZE_BYTES in Hn; lia).
    pose proof (parseInt_toString n "" Hpos eq_refl) as Hback.
    assert (Hnil : forall s, (s ++ "")%string = s)
      by (induction s as [|c s IH]; cbn; congruence).
    rewrite Hnil in Hback. exact Hback. }
  split; [exact Hparse|].
  apply (specResolvedSize_in_bounds _ _ Hparse Hn).
Qed.

(** C1.  The download handler of functions/api/download.js keeps its
    promise: for a request whose size parses to [n] within the bounds,
    the response has status 200 and Content-Length [n] in decimal, its
    body is the stream over [n] bytes, the bytes enqueued always equal
    the cursor and never exceed [n], the stream is [CLOSED] only with
    [n] bytes enqueued, a pull closes it exactly then, and with a
    source that does not fail pulling reaches that state. *)
Theorem content_length_matches_body (context : Context) (w : World) (raw : string)
    (n : Z) :
  searchParams_get "size" context = Some raw ->
  parseInt raw 10 = Num n ->
  Download.MIN_FILE_SIZE_BYTES <= n <= Download.MAX_FILE_SIZE_BYTES ->
  exists response start,
    Download.onRequestGet context w = (Normal response, start) /\
    status response = 200 /\
    getProperty "Content-Length" (headers response) = Some (toString n) /\
    parseInt (toString n) 10 = Num n /\
    body response = Some (stream_of (Download.source n)) /\
    (forall history,
        let w' := run (Download.source n) history start in
        totalBytes (enqueued w') = bytesSent w' /\
        totalBytes (enqueued w') <= n /\
        (state w' = CLOSED -> totalBytes (enqueued w') = n) /\
        (state w' = STREAMING ->
         (state (dispatch (Download.source n) PullRequested w') = CLOSED
          <-> totalBytes (enqueued w') = n))) /\
    (reliable (random w) ->
     forall j, (Z.to_nat (chunkCount n) < j)%nat ->
               let w' := run (Download.source n) (pulls j) start in
               state w' = CLOSED /\ totalBytes (enqueued w') = n).
Proof.
  intros Hraw Hparse Hn.
  assert (Hpos : 0 < n) by (unfold Download.MIN_FILE_SIZE_BYTES in Hn; lia).
  destruct (specResolvedSize_in_bounds raw n Hparse Hn) as [Hsize Hlog].
  eexists. eexists. rewrite onRequestGet_run, Hraw, Hsize.
  split; [reflexivity|]. split; [reflexivity|]. split; [reflexivity|].
  split; [apply resolved_size_prints_back; exact Hn|].
  split; [reflexivity|]. split.
  - intros history w'.
    assert (Inv : Invariant n (streamStart (random w) (drawn w)
                                 (console w ++ validatorLog (Some raw))) w')
      by (apply invariant_run, invariant_start; lia).
    pose proof (inv_total _ _ _ Inv) as Htotal.
    pose proof (inv_cursor _ _ _ Inv) as Hcursor.
    rewrite Htotal. repeat split.
    + lia.
    + apply (inv_closed _ _ _ Inv).
    + apply (pull_closes_iff n _ w' Inv). assumption.
    + apply (pull_closes_iff n _ w' Inv). assumption.
  - intros Hrel j Hj w'.
    destruct (run_pulls_beyond n (random w) (drawn w)
                (console w ++ validatorLog (Some raw)) j Hpos Hrel) as (H1 & H2 & _).
    + pose proof (chunkCount_bounds n Hpos). lia.
    + assert (Inv : Invariant n (streamStart (random w) (drawn w)
                                   (console w ++ validatorLog (Some raw))) w')
        by (apply invariant_run, invariant_start; lia).
      split; [exact H1|]. rewrite (inv_total _ _ _ Inv). exact H2.
Qed.

Lemma content_length_matches_body_witness :
  exists response start,
    Download.onRequestGet (requestWithSize "2048") (idleWorld countingSource)
    = (Normal response, start) /\
    status response = 200 /\
    getProperty "Content-Length" (headers response) = Some (toString 2048) /\
    parseInt (toString 2048) 10 = Num 2048 /\
    body response = Some (stream_of (Download.source 2048)) /\
    (forall history,
        let w' := run (Download.source 2048) history start in
        totalBytes (enqueued w') = bytesSent w' /\
        totalBytes (enqueued w') <= 2048 /\
        (state w' = CLOSED -> totalBytes (enqueued w') = 2048) /\
        (state w' = STREAMING ->
         (state (dispatch (Download.source 2048) PullRequested w') = CLOSED
          <-> totalBytes (enqueued w') = 2048))) /\
    (reliable (random (idleWorld countingSource)) ->
     forall j, (Z.to_nat (chunkCount 2048) < j)%nat ->
               let w' := run (Download.source 2048) (pulls j) start in
               state w' = CLOSED /\ totalBytes (enqueued w') = 2048).
Proof.
  apply (content_length_matches_body (requestWithSize "2048")
           (idleWorld countingSource) "2048" 2048).
  - reflexivity.
  - reflexivity.
  - vm_compute. split; discriminate.
Defined.

(** ** Chunk contents *)

(** The chunks of functions/api/download.js come from the random
    source: a chunk a pull enqueues is what the generator returns for
    its length in the world before the pull, namely the next bytes of
    the tape, which the pull consumes; and all bytes enqueued so far
    are the tape from the position at which the stream started. *)
Theorem chunks_are_random_bytes (fileSize : Z) (r : RandomSource) (position : nat)
    (log : list LogLine) (history : list Event) :
  Download.MIN_FILE_SIZE_BYTES <= fileSize <= Download.MAX_FILE_SIZE_BYTES ->
  let before := run (Download.source fileSize) history (streamStart r position log) in
  let after := dispatch (Download.source fileSize) PullRequested before in
  (forall chunk,
      enqueued after = enqueued before ++ [chunk] ->
      completion (Download.generateRandomChunk (byteLength chunk)) before = Normal chunk /\
      chunk = map (tape r) (seq (drawn before) (List.length chunk)) /\
      drawn after = (drawn before + List.length chunk)%nat) /\
  List.concat (enqueued before)
  = map (tape r) (seq position (Z.to_nat (bytesSent before))) /\
  drawn before = (position + Z.to_nat (bytesSent before))%nat.
Proof.
  intros Hsize before after.
  assert (Hpos : 0 <= fileSize) by (unfold Download.MIN_FILE_SIZE_BYTES in Hsize; lia).
  assert (Inv : Invariant fileSize (streamStart r position log) before)
    by (apply invariant_run, invariant_start; exact Hpos).
  pose proof (inv_source _ _ _ Inv) as Hsrc. cbn [streamStart random] in Hsrc.
  split.
  - intros chunk Henq. subst after.
    destruct (dispatch_pull_outcome fileSize before) as [Hst|Hst Hge|Hst Hlt Hout|Hst Hlt Hout];
      try (exfalso; exact (not_self_extending _ _ Henq)).
    cbn [enqueued] in Henq. apply app_inj_tail in Henq as [_ <-].
    pose proof (stepSize_bounds fileSize before Hlt) as Hn.
    rewrite byteLength_tape by lia. unfold completion.
    rewrite generateRandomChunk_ok by (assumption || lia).
    rewrite length_map, length_seq, Hsrc. cbn [fst drawn].
    repeat split; reflexivity.
  - split; [apply (inv_bytes _ _ _ Inv)|apply (inv_drawn _ _ _ Inv)].
Qed.

Lemma chunks_are_random_bytes_witness :
  let before := run (Download.source 1024) [] (streamStart countingSource 0 []) in
  let after := dispatch (Download.source 1024) PullRequested before in
  (forall chunk,
      enqueued after = enqueued before ++ [chunk] ->
      completion (Download.generateRandomChunk (byteLength chunk)) before = Normal chunk /\
      chunk = map (tape countingSource) (seq (drawn before) (List.length chunk)) /\
      drawn after = (drawn before + List.length chunk)%nat) /\
  List.concat (enqueued before)
  = map (tape countingSource) (seq 0 (Z.to_nat (bytesSent before))) /\
  drawn before = (0 + Z.to_nat (bytesSent before))%nat.
Proof.
  apply (chunks_are_random_bytes 1024 countingSource 0 [] []).
  vm_compute. split; discriminate.
Defined.

Section ConstantFill.

Lemma setIndex_next (filled : nat) (v b : byte) (rest : Uint8Array) :
  Rev002.setIndex (repeat v filled ++ b :: rest) filled v = repeat v (S filled) ++ rest.
Proof.
  induction filled as [|k IH]; [reflexivity|].
  cbn [repeat app Rev002.setIndex]. rewrite IH. reflexivity.
Qed.

Lemma fillLoop_from (todo : nat) :
  forall filled,
    fold_left (fun chunk i => Rev002.setIndex chunk i x61) (seq filled todo)
      (repeat x61 filled ++ repeat x00 todo)
    = repeat x61 (filled + todo).
Proof.
  induction todo as [|m IH]; intros filled.
  - cbn [seq fold_left repeat]. rewrite app_nil_r, Nat.add_0_r. reflexivity.
  - cbn [seq fold_left repeat]. rewrite setIndex_next, IH.
    f_equal. lia.
Qed.

Lemma fillLoop_constant (n : Z) :
  Rev002.fillLoop n (repeat x00 (Z.to_nat n)) = repeat x61 (Z.to_nat n).
Proof.
  unfold Rev002.fillLoop. exact (fillLoop_from (Z.to_nat n) 0).
Qed.

Lemma rev002_pull_emit (w : World) :
  state w = STREAMING -> bytesSent w < Rev002.fileSize ->
  Rev002.pull w =
    (Normal tt,
     mkWorld (bytesSent w + Z.min Rev002.chunkSize (Rev002.fileSize - bytesSent w))
       STREAMING
       (enqueued w ++
          [repeat x61 (Z.to_nat (Z.min Rev002.chunkSize (Rev002.fileSize - bytesSent w)))])
       (random w) (drawn w) (console w)).
Proof.
  intros Hst Hlt. unfold Rev002.pull, bind at 1, read.
  destruct (Z.geb_spec (bytesSent w) Rev002.fileSize) as [Hge|_]; [lia|].
  set (n := Z.min Rev002.chunkSize (Rev002.fileSize - bytesSent w)).
  assert (Hn : 1 <= n) by (subst n; unfold Rev002.chunkSize; lia).
  unfold bind, new_Uint8Array.
  destruct (Z.ltb_spec n 0) as [Hneg|_]; [lia|].
  unfold ret. rewrite fillLoop_constant.
  unfold controller_enqueue, write, with_bytesSent, with_enqueued.
  cbn [bytesSent state enqueued random drawn console].
  rewrite Hst. reflexivity.
Qed.

End ConstantFill.

(** C6, on the revision in src/unnamed/part_002.  Whatever the random
    source holds, the first pull of a download enqueues one chunk of
    65536 bytes that are all 97, the letter a, and draws nothing from
    the source; the same holds of every later chunk, up to its
    length. *)
Theorem rev002_chunks_are_constant :
  (forall r position log,
      let after := dispatch Rev002.source PullRequested (streamStart r position log) in
      enqueued after = [repeat x61 (Z.to_nat 65536)] /\
      drawn after = position /\
      bytesSent after = 65536) /\
  (forall w,
      exists n,
        enqueued (dispatch Rev002.source PullRequested w) = enqueued w \/
        enqueued (dispatch Rev002.source PullRequested w) = enqueued w ++ [repeat x61 n]).
Proof.
  split.
  - intros r position log after. subst after. unfold dispatch.
    cbn [streamStart state Rev002.source source_pull].
    rewrite rev002_pull_emit by reflexivity.
    cbn [bytesSent enqueued drawn app].
    repeat split; reflexivity.
  - intros w. unfold dispatch.
    destruct (state w) eqn:Hst; try (exists O; left; reflexivity).
    cbn [Rev002.source source_pull].
    destruct (Z_lt_le_dec (bytesSent w) Rev002.fileSize) as [Hlt|Hge].
    + rewrite rev002_pull_emit by assumption. eexists. right. reflexivity.
    + exists O. left. unfold Rev002.pull, bind, read.
      destruct (Z.geb_spec (bytesSent w) Rev002.fileSize) as [_|Hlt]; [|lia].
      unfold controller_close. rewrite Hst. reflexivity.
Qed.

(** ** Preflight *)

(** The preflight handler of functions/api/download.js answers every
    request with status 204, no body, and the CORS headers, among them
    Access-Control-Allow-Methods and Access-Control-Allow-Headers; it
    changes nothing in the world. *)
Theorem options_preflight (context : Context) (w : World) :
  exists response,
    Download.onRequestOptions context w = (Normal response, w) /\
    status response = 204 /\
    body response = None /\
    getProperty "Access-Control-Allow-Origin" (headers response) = Some "*" /\
    getProperty "Access-Control-Allow-Methods" (headers response)
    = Some "GET, POST, OPTIONS" /\
    getProperty "Access-Control-Allow-Headers" (headers response)
    = Some "Content-Type, Range".
Proof.
  eexists. split; [reflexivity|]. repeat split; reflexivity.
Qed.

(** C9, on the revisions in src/unnamed/part_000 and part_002.  Their
    preflight handlers build the response without a status, so every
    OPTIONS request is answered with status 200 instead of 204; body
    and CORS headers are as the claim says. *)
Theorem rev_options_status_is_200 (context : Context) (w : World) :
  (exists response,
      Rev000.onRequestOptions context w = (Normal response, w) /\
      status response = 200 /\
      body response = None /\
      getProperty "Access-Control-Allow-Methods" (headers response)
      = Some "GET, POST, OPTIONS" /\
      getProperty "Access-Control-Allow-Headers" (headers response)
      = Some "Content-Type") /\
  Rev002.onRequestOptions context w = Rev000.onRequestOptions context w.
Proof.
  split; [|reflexivity].
  eexists. split; [reflexivity|]. repeat split; reflexivity.
Qed.

(** ** Every request gets a stream within the bounds *)

(** Whatever the query holds, [onRequestGet] answers with a stream over
    a byte count between the minimum and the maximum, announces that
    count as Content-Length, and leaves the cursor at zero on a
    readable, empty stream; the random source is untouched. *)
Theorem resolved_size_always_in_bounds (context : Context) (w : World) :
  exists response start n,
    Download.onRequestGet context w = (Normal response, start) /\
    body response = Some (stream_of (Download.source n)) /\
    getProperty "Content-Length" (headers response) = Some (toString n) /\
    Download.MIN_FILE_SIZE_BYTES <= n <= Download.MAX_FILE_SIZE_BYTES /\
    start = streamStart (random w) (drawn w) (console start).
Proof.
  rewrite onRequestGet_run. eexists. eexists. eexists.
  split; [reflexivity|]. split; [reflexivity|]. split; [reflexivity|].
  split; [apply specResolvedSize_bounds|reflexivity].
Qed.

(** * Further properties of the endpoint *)

(** ** Signs and blanks in the size parameter *)

Section Signs.

Lemma trimStart_blank (ws s : string) :
  allBlank ws = true -> trimStart (ws ++ s) = trimStart s.
Proof.
  induction ws as [|c r IH]; intros Hws; [reflexivity|].
  cbn [allBlank] in Hws. apply andb_prop in Hws as [Hc Hr].
  cbn [append trimStart]. rewrite Hc. exact (IH Hr).
Qed.

Lemma parseInt_blank (ws s : string) (radix : Z) :
  allBlank ws = true -> parseInt (ws ++ s) radix = parseInt s radix.
Proof.
  intros Hws. unfold parseInt. rewrite trimStart_blank by exact Hws. reflexivity.
Qed.

Lemma radixDigit_nonneg (R : Z) (c : ascii) (d : Z) :
  radixDigit R c = Some d -> 0 <= d.
Proof.
  unfold radixDigit, digitValue.
  destruct ((48 <=? code c) && (code c <=? 57)) eqn:H1.
  - apply andb_prop in H1 as [H1 _]. apply Z.leb_le in H1.
    destruct (code c - 48 <? R); intros [= <-]; lia.
  - destruct ((97 <=? code c) && (code c <=? 122)) eqn:H2.
    + apply andb_prop in H2 as [H2 _]. apply Z.leb_le in H2.
      destruct (code c - 97 + 10 <? R); intros [= <-]; lia.
    + destruct ((65 <=? code c) && (code c <=? 90)) eqn:H3; [|discriminate].
      apply andb_prop in H3 as [H3 _]. apply Z.leb_le in H3.
      destruct (code c - 65 + 10 <? R); intros [= <-]; lia.
Qed.

Lemma digitPrefix_nonneg (R : Z) (s : string) :
  Forall (fun d => 0 <= d) (digitPrefix R s).
Proof.
  induction s as [|c r IH]; cbn [digitPrefix]; [constructor|].
  destruct (radixDigit R c) as [d|] eqn:Hd; [|constructor].
  constructor; [exact (radixDigit_nonneg R c d Hd)|exact IH].
Qed.

Lemma mathInt_nonneg (ds : list Z) :
  Forall (fun d => 0 <= d) ds -> 0 <= mathInt 10 ds.
Proof.
  unfold mathInt. intros Hds.
  assert (Hacc : forall acc, 0 <= acc ->
                             0 <= fold_left (fun a d => a * 10 + d) ds acc).
  { induction Hds as [|d l Hd _ IH]; intros acc Hacc; cbn [fold_left]; [exact Hacc|].
    apply IH. lia. }
  apply Hacc. lia.
Qed.

(** A value that starts, after blanks, with a minus sign never parses
    to a positive number. *)
Lemma parseInt_minus (ws rest : string) :
  allBlank ws = true ->
  parseInt (ws ++ String "-" rest) 10 = NaN \/
  exists n, parseInt (ws ++ String "-" rest) 10 = Num n /\ n <= 0.
Proof.
  intros Hws. rewrite parseInt_blank by exact Hws. rewrite parseInt_10.
  change (stripSign (trimStart (String "-" rest))) with (-1, rest).
  cbn [fst snd].
  pose proof (mathInt_nonneg _ (digitPrefix_nonneg 10 rest)) as Hpos.
  destruct (digitPrefix 10 rest) as [|d l]; [left; reflexivity|].
  right. eexists. split; [reflexivity|]. lia.
Qed.

Lemma parseInt_plus (s : string) :
  startsWithDigit s = true ->
  parseInt (String "+" s) 10 = parseInt s 10.
Proof.
  intros Hs. rewrite !parseInt_10.
  change (stripSign (trimStart (String "+" s))) with (1, s).
  destruct s as [|c r]; [discriminate|].
  cbn [startsWithDigit] in Hs.
  destruct (digit_not_blank c Hs) as (Hw & Hm & Hp).
  cbn [trimStart]. rewrite Hw. cbn [stripSign]. rewrite Hm, Hp. reflexivity.
Qed.

End Signs.

(** Blanks before the size and a plus sign are skipped, so such a value
    resolves like its digits; a value whose first character after the
    blanks is a minus sign always resolves to the default, whatever
    follows. *)
Theorem size_sign_and_blanks :
  (forall ws rest w,
      allBlank ws = true ->
      completion (Download.resolveFileSize (Some (ws ++ String "-" rest)%string)) w
      = Normal Download.DEFAULT_FILE_SIZE_BYTES) /\
  (forall ws ds t w,
      allBlank ws = true ->
      startsWithDigit ds = true -> decimalDigits ds = true ->
      startsWithDigit t = false ->
      Download.MIN_FILE_SIZE_BYTES <= decimalValue ds <= Download.MAX_FILE_SIZE_BYTES ->
      completion (Download.resolveFileSize (Some (ws ++ ds ++ t)%string)) w
      = Normal (decimalValue ds) /\
      completion (Download.resolveFileSize (Some (ws ++ String "+" (ds ++ t))%string)) w
      = Normal (decimalValue ds)).
Proof.
  split.
  - intros ws rest w Hws. rewrite resolveFileSize_value. unfold specResolvedSize.
    destruct (parseInt_minus ws rest Hws) as [->|(n & -> & Hn)]; [reflexivity|].
    destruct (Z.leb_spec Download.MIN_FILE_SIZE_BYTES n) as [Hge|_]; [|reflexivity].
    unfold Download.MIN_FILE_SIZE_BYTES in Hge. lia.
  - intros ws ds t w Hws Hne Hds Ht Hn.
    assert (Hparse : parseInt (ds ++ t) 10 = Num (decimalValue ds))
      by (apply parseInt_prefix; assumption).
    assert (Hstart : startsWithDigit (ds ++ t) = true)
      by (destruct ds; [discriminate|exact Hne]).
    split; rewrite resolveFileSize_value; f_equal.
    + apply (specResolvedSize_in_bounds _ _); [|exact Hn].
      rewrite parseInt_blank by exact Hws. exact Hparse.
    + apply (specResolvedSize_in_bounds _ _); [|exact Hn].
      rewrite parseInt_blank by exact Hws.
      rewrite parseInt_plus by exact Hstart. exact Hparse.
Qed.

Lemma size_sign_and_blanks_witness :
  completion (Download.resolveFileSize (Some ("  " ++ String "-" "2048")%string))
    (idleWorld countingSource)
  = Normal Download.DEFAULT_FILE_SIZE_BYTES /\
  (completion (Download.resolveFileSize (Some (" " ++ "2048" ++ "")%string))
     (idleWorld countingSource)
   = Normal (decimalValue "2048") /\
   completion (Download.resolveFileSize (Some (" " ++ String "+" ("2048" ++ ""))%string))
     (idleWorld countingSource)
   = Normal (decimalValue "2048")).
Proof.
  split.
  - apply (proj1 size_sign_and_blanks "  " "2048" (idleWorld countingSource)).
    reflexivity.
  - apply (proj2 size_sign_and_blanks " " "2048" "" (idleWorld countingSource)).
    + reflexivity.
    + reflexivity.
    + reflexivity.
    + reflexivity.
    + vm_compute. split; discriminate.
Defined.

(** ** What the validator writes *)

(** The validator leaves the world as it found it when the size is
    absent, empty or accepted; when a non-empty size is not accepted it
    appends one console line that quotes the raw value, and changes
    nothing else. *)
Theorem validator_logs_exactly_on_rejection (raw : option string) (w : World) :
  worldAfter (Download.resolveFileSize raw) w =
    if truthy raw && negb (accepted raw)
    then with_console (console w ++ [fallbackLine (ToString raw)]) w
    else w.
Proof.
  unfold worldAfter. rewrite resolveFileSize_run. cbn [snd].
  unfold validatorLog, accepted.
  destruct raw as [[|c r]|]; cbn [truthy andb ToString].
  - rewrite app_nil_r. apply world_eta.
  - destruct (parseInt (String c r) 10) as [|n]; cbn [negb]; [reflexivity|].
    destruct ((Download.MIN_FILE_SIZE_BYTES <=? n) && (n <=? Download.MAX_FILE_SIZE_BYTES));
      cbn [negb]; [|reflexivity].
    rewrite app_nil_r. apply world_eta.
  - rewrite app_nil_r. apply world_eta.
Qed.

(** ** The announced size as a size parameter *)

(** Asking again with the Content-Length of any response as the size
    gives the same Content-Length and the same stream, and the
    validator accepts it without a console line. *)
Theorem content_length_round_trip (context : Context) (w w2 : World) :
  exists response start announced response2 start2,
    Download.onRequestGet context w = (Normal response, start) /\
    getProperty "Content-Length" (headers response) = Some announced /\
    Download.onRequestGet (requestWithSize announced) w2 = (Normal response2, start2) /\
    getProperty "Content-Length" (headers response2) = Some announced /\
    body response2 = body response /\
    console start2 = console w2.
Proof.
  pose proof (specResolvedSize_bounds (searchParams_get "size" context)) as Hn.
  set (n := specResolvedSize (searchParams_get "size" context)) in *.
  destruct (resolved_size_prints_back n Hn) as [Hparse Hsize].
  destruct (specResolvedSize_in_bounds (toString n) n Hparse Hn) as [_ Hlog].
  assert (Hget : forall text, searchParams_get "size" (requestWithSize text) = Some text)
    by reflexivity.
  do 2 eexists. exists (toString n). do 2 eexists.
  rewrite !onRequestGet_run. fold n. rewrite Hget, Hsize, Hlog.
  split; [reflexivity|]. split; [reflexivity|]. split; [reflexivity|].
  split; [reflexivity|]. split; [reflexivity|].
  cbn [streamStart console]. apply app_nil_r.
Qed.

(** ** The request the page sends *)

(** A request without a size parameter is served the default size
    without a console line, whatever the state of the random source.
    The page's download request carries only the parameter [r], and the
    default equals the size the page expects (DOWNLOAD_FILE_SIZE_BYTES,
    10 MiB): the response announces it and, with a source that does not
    fail, the stream closes after exactly 160 chunks holding that many
    bytes. *)
Theorem request_without_size_gets_default (context : Context) (w : World) :
  searchParams_get "size" context = None ->
  (forall r, searchParams_get "size" (Page.downloadQuery r) = None) /\
  Download.DEFAULT_FILE_SIZE_BYTES = Page.DOWNLOAD_FILE_SIZE_BYTES /\
  exists response start,
    Download.onRequestGet context w = (Normal response, start) /\
    getProperty "Content-Length" (headers response)
    = Some (toString Page.DOWNLOAD_FILE_SIZE_BYTES) /\
    body response = Some (stream_of (Download.source Page.DOWNLOAD_FILE_SIZE_BYTES)) /\
    console start = console w /\
    (reliable (random w) ->
     forall j, (160 < j)%nat ->
       let w' := run (Download.source Page.DOWNLOAD_FILE_SIZE_BYTES) (pulls j) start in
       state w' = CLOSED /\
       totalBytes (enqueued w') = Page.DOWNLOAD_FILE_SIZE_BYTES /\
       List.length (enqueued w') = 160%nat).
Proof.
  intros Hnone.
  split; [intros r; reflexivity|]. split; [reflexivity|].
  rewrite onRequestGet_run, Hnone.
  change (specResolvedSize None) with Page.DOWNLOAD_FILE_SIZE_BYTES.
  do 2 eexists.
  split; [reflexivity|]. split; [reflexivity|]. split; [reflexivity|].
  split; [cbn [streamStart console validatorLog]; apply app_nil_r|].
  intros Hrel j Hj w'.
  assert (Hpos : 0 < Page.DOWNLOAD_FILE_SIZE_BYTES) by reflexivity.
  assert (Hcount : chunkCount Page.DOWNLOAD_FILE_SIZE_BYTES = 160) by reflexivity.
  destruct (run_pulls_beyond Page.DOWNLOAD_FILE_SIZE_BYTES (random w) (drawn w)
              (console w ++ validatorLog None) j Hpos Hrel) as (H1 & H2 & H3).
  - rewrite Hcount. lia.
  - assert (Inv : Invariant Page.DOWNLOAD_FILE_SIZE_BYTES
                    (streamStart (random w) (drawn w) (console w ++ validatorLog None)) w')
      by (apply invariant_run, invariant_start; lia).
    split; [exact H1|]. split.
    + rewrite (inv_total _ _ _ Inv). exact H2.
    + fold w' in H3. rewrite H3, Hcount. reflexivity.
Qed.

Lemma request_without_size_gets_default_witness :
  (forall r, searchParams_get "size" (Page.downloadQuery r) = None) /\
  Download.DEFAULT_FILE_SIZE_BYTES = Page.DOWNLOAD_FILE_SIZE_BYTES /\
  exists response start,
    Download.onRequestGet (Page.downloadQuery "0.42") (streamStart brokenSource 0 [])
    = (Normal response, start) /\
    getProperty "Content-Length" (headers response)
    = Some (toString Page.DOWNLOAD_FILE_SIZE_BYTES) /\
    body response = Some (stream_of (Download.source Page.DOWNLOAD_FILE_SIZE_BYTES)) /\
    console start = console (streamStart brokenSource 0 []) /\
    (reliable (random (streamStart brokenSource 0 [])) ->
     forall j, (160 < j)%nat ->
       let w' := run (Download.source Page.DOWNLOAD_FILE_SIZE_BYTES) (pulls j) start in
       state w' = CLOSED /\
       totalBytes (enqueued w') = Page.DOWNLOAD_FILE_SIZE_BYTES /\
       List.length (enqueued w') = 160%nat).
Proof.
  apply (request_without_size_gets_default (Page.downloadQuery "0.42")
           (streamStart brokenSource 0 [])).
  reflexivity.
Defined.

(** ** One download after another *)

(** When a second request is handled after the transport has stopped
    using the first stream, the bytes of the first download are the
    stretch of the random source from where it started, and the bytes
    of the second are the stretch that begins where the first ended:
    no byte of the source is sent twice. *)
Theorem successive_downloads_use_fresh_bytes (context1 context2 : Context) (w : World)
    (history1 history2 : list Event) :
  let n1 := specResolvedSize (searchParams_get "size" context1) in
  let n2 := specResolvedSize (searchParams_get "size" context2) in
  let start1 := worldAfter (Download.onRequestGet context1) w in
  let w1 := run (Download.source n1) history1 start1 in
  let start2 := worldAfter (Download.onRequestGet context2) w1 in
  let w2 := run (Download.source n2) history2 start2 in
  state w1 <> STREAMING ->
  completion (Download.onRequestGet context1) w
  = Normal (mkResponse (Some (stream_of (Download.source n1))) 200 (downloadHeaders n1)) /\
  completion (Download.onRequestGet context2) w1
  = Normal (mkResponse (Some (stream_of (Download.source n2))) 200 (downloadHeaders n2)) /\
  List.concat (enqueued w1)
  = map (tape (random w)) (seq (drawn w) (Z.to_nat (bytesSent w1))) /\
  List.concat (enqueued w2)
  = map (tape (random w))
      (seq (drawn w + Z.to_nat (bytesSent w1)) (Z.to_nat (bytesSent w2))) /\
  drawn w2 = (drawn w + Z.to_nat (bytesSent w1) + Z.to_nat (bytesSent w2))%nat.
Proof.
  intros n1 n2 start1 w1 start2 w2 _.
  assert (Hstart1 : start1 = streamStart (random w) (drawn w)
                               (console w ++ validatorLog (searchParams_get "size" context1)))
    by (unfold start1, worldAfter; rewrite onRequestGet_run; reflexivity).
  assert (Hstart2 : start2 = streamStart (random w1) (drawn w1)
                               (console w1 ++ validatorLog (searchParams_get "size" context2)))
    by (unfold start2, worldAfter; rewrite onRequestGet_run; reflexivity).
  pose proof (specResolvedSize_bounds (searchParams_get "size" context1)) as Hn1.
  pose proof (specResolvedSize_bounds (searchParams_get "size" context2)) as Hn2.
  unfold Download.MIN_FILE_SIZE_BYTES in Hn1, Hn2.
  assert (Inv1 : Invariant n1 start1 w1)
    by (rewrite Hstart1 at 1; unfold w1; rewrite Hstart1;
        apply invariant_run, invariant_start; fold n1; lia).
  assert (Inv2 : Invariant n2 start2 w2)
    by (rewrite Hstart2 at 1; unfold w2; rewrite Hstart2;
        apply invariant_run, invariant_start; fold n2; lia).
  pose proof (inv_source _ _ _ Inv1) as Hsrc1.
  pose proof (inv_drawn _ _ _ Inv1) as Hdrawn1.
  pose proof (inv_bytes _ _ _ Inv1) as Hbytes1.
  pose proof (inv_drawn _ _ _ Inv2) as Hdrawn2.
  pose proof (inv_bytes _ _ _ Inv2) as Hbytes2.
  rewrite Hstart1 in Hsrc1, Hdrawn1, Hbytes1. cbn [streamStart random drawn] in *.
  rewrite Hstart2 in Hdrawn2, Hbytes2. cbn [streamStart random drawn] in *.
  unfold completion. rewrite !onRequestGet_run. cbn [fst].
  split; [reflexivity|]. split; [reflexivity|]. split; [exact Hbytes1|].
  split.
  - rewrite Hbytes2, Hsrc1, Hdrawn1. reflexivity.
  - rewrite Hdrawn2, Hdrawn1. reflexivity.
Qed.

Lemma successive_downloads_use_fresh_bytes_witness :
  let context1 := requestWithSize "2048" in
  let context2 := requestWithSize "4096" in
  let w := idleWorld countingSource in
  let n1 := specResolvedSize (searchParams_get "size" context1) in
  let n2 := specResolvedSize (searchParams_get "size" context2) in
  let start1 := worldAfter (Download.onRequestGet context1) w in
  let w1 := run (Download.source n1) [PullRequested; PullRequested] start1 in
  let start2 := worldAfter (Download.onRequestGet context2) w1 in
  let w2 := run (Download.source n2) [PullRequested; PullRequested] start2 in
  (state w1 = CLOSED /\ bytesSent w1 = 2048 /\
   state w2 = CLOSED /\ bytesSent w2 = 4096 /\ Z.of_nat (drawn w2) = 6144) /\
  completion (Download.onRequestGet context1) w
  = Normal (mkResponse (Some (stream_of (Download.source n1))) 200 (downloadHeaders n1)) /\
  completion (Download.onRequestGet context2) w1
  = Normal (mkResponse (Some (stream_of (Download.source n2))) 200 (downloadHeaders n2)) /\
  List.concat (enqueued w1)
  = map (tape (random w)) (seq (drawn w) (Z.to_nat (bytesSent w1))) /\
  List.concat (enqueued w2)
  = map (tape (random w))
      (seq (drawn w + Z.to_nat (bytesSent w1)) (Z.to_nat (bytesSent w2))) /\
  drawn w2 = (drawn w + Z.to_nat (bytesSent w1) + Z.to_nat (bytesSent w2))%nat.
Proof.
  split.
  - vm_compute. repeat split; reflexivity.
  - apply (successive_downloads_use_fresh_bytes (requestWithSize "2048")
             (requestWithSize "4096") (idleWorld countingSource)
             [PullRequested; PullRequested] [PullRequested; PullRequested]).
    vm_compute. discriminate.
Defined.

(** ** What one pull can cost *)

(** A pull hands the controller at most one chunk, of at most 65536
    bytes, and draws from the random source exactly the bytes of that
    chunk; the cursor advances by the same amount.  This holds in every
    world, also one the stream could not have reached. *)
Theorem pull_generates_at_most_one_chunk (fileSize : Z) (w : World) :
  let after := dispatch (Download.source fileSize) PullRequested w in
  exists added,
    enqueued after = enqueued w ++ added /\
    (List.length added <= 1)%nat /\
    0 <= totalBytes added <= 65536 /\
    drawn after = (drawn w + Z.to_nat (totalBytes added))%nat /\
    bytesSent after = bytesSent w + totalBytes added.
Proof.
  cbv zeta.
  destruct (dispatch_pull_outcome fileSize w) as [Hst|Hst Hge|Hst Hlt Hout|Hst Hlt Hout].
  - exists []. unfold totalBytes. cbn [enqueued drawn bytesSent fold_right List.length].
    rewrite app_nil_r. repeat split; lia.
  - exists []. unfold with_state, totalBytes.
    cbn [enqueued drawn bytesSent fold_right List.length].
    rewrite app_nil_r. repeat split; lia.
  - exists []. unfold totalBytes. cbn [enqueued drawn bytesSent fold_right List.length].
    rewrite app_nil_r. repeat split; lia.
  - pose proof (stepSize_bounds fileSize w Hlt) as Hn.
    eexists [_]. cbn [enqueued drawn bytesSent].
    split; [reflexivity|]. unfold totalBytes. cbn [fold_right List.length].
    rewrite byteLength_tape by lia.
    replace (stepSize fileSize w + 0) with (stepSize fileSize w) by lia.
    repeat split; lia.
Qed.

(** ** Full chunks, one after the other *)

Section FullChunks.
Variable fileSize : Z.

(** As long as a whole chunk is still owed and the source holds at the
    positions read, [j] pulls emit [j] chunks of 65536 bytes. *)
Lemma run_full_pulls (j : nat) :
  forall w,
    state w = STREAMING ->
    bytesSent w + Z.of_nat j * 65536 <= fileSize ->
    (forall i, (i < j)%nat ->
               outage (random w) (drawn w + Z.to_nat (Z.of_nat i * 65536)) = false) ->
    let w' := run (Download.source fileSize) (pulls j) w in
    state w' = STREAMING /\
    bytesSent w' = bytesSent w + Z.of_nat j * 65536 /\
    map byteLength (enqueued w') = map byteLength (enqueued w) ++ repeat 65536 j /\
    random w' = random w /\
    drawn w' = (drawn w + Z.to_nat (Z.of_nat j * 65536))%nat /\
    console w' = console w.
Proof.
  induction j as [|j IH]; intros w Hst Hroom Hok.
  - cbn [pulls repeat run fold_left]. rewrite app_nil_r.
    repeat split; try assumption; try reflexivity; lia.
  - assert (Hlt : bytesSent w < fileSize) by lia.
    assert (Hstep : stepSize fileSize w = 65536)
      by (unfold stepSize, Download.chunkSize; lia).
    assert (Hout : outage (random w) (drawn w) = false).
    { specialize (Hok O ltac:(lia)). cbn in Hok. rewrite Nat.add_0_r in Hok. exact Hok. }
    change (pulls (S j)) with (PullRequested :: pulls j).
    rewrite run_cons, dispatch_emit by assumption. rewrite Hstep.
    set (w1 := mkWorld _ _ _ _ _ _).
    destruct (IH w1) as (H1 & H2 & H3 & H4 & H5 & H6).
    + reflexivity.
    + subst w1. cbn [bytesSent]. lia.
    + intros i Hi. subst w1. cbn [random drawn].
      specialize (Hok (S i) ltac:(lia)).
      replace (drawn w + Z.to_nat 65536 + Z.to_nat (Z.of_nat i * 65536))%nat
        with (drawn w + Z.to_nat (Z.of_nat (S i) * 65536))%nat by lia.
      exact Hok.
    + cbv zeta. rewrite H2, H3, H4, H5, H6. subst w1.
      cbn [bytesSent enqueued random drawn console].
      rewrite map_app. cbn [map]. rewrite byteLength_tape by lia.
      rewrite <- app_assoc. cbn [app repeat].
      replace (65536 :: repeat 65536 j) with (repeat 65536 j ++ [65536])
        by (symmetry; apply repeat_cons).
      repeat split; try reflexivity; try assumption; lia.
Qed.

End FullChunks.

(** The chunk lengths of a completed transfer are laid out as the size
    dictates: [fileSize / 65536] chunks of 65536 bytes, followed by one
    chunk of [fileSize mod 65536] bytes when that is not zero. *)
Theorem drained_stream_layout (fileSize : Z) (r : RandomSource) (position : nat)
    (log : list LogLine) :
  Download.MIN_FILE_SIZE_BYTES <= fileSize <= Download.MAX_FILE_SIZE_BYTES ->
  reliable r ->
  let w := run (Download.source fileSize) (pulls (Z.to_nat (chunkCount fileSize)))
             (streamStart r position log) in
  map byteLength (enqueued w) = chunkLayout fileSize /\
  bytesSent w = fileSize.
Proof.
  intros Hsize Hrel.
  assert (Hpos : 0 < fileSize) by (unfold Download.MIN_FILE_SIZE_BYTES in Hsize; lia).
  pose proof (chunkCount_bounds fileSize Hpos) as (Hk & Hlo & Hhi).
  pose proof (Z.div_mod fileSize 65536 ltac:(lia)) as Hdiv.
  pose proof (Z.mod_pos_bound fileSize 65536 ltac:(lia)) as Hmod.
  set (q := fileSize / 65536) in *. set (m := fileSize mod 65536) in *.
  assert (Hq : 0 <= q) by lia.
  destruct (run_full_pulls fileSize (Z.to_nat q) (streamStart r position log))
    as (H1 & H2 & H3 & H4 & H5 & _).
  { reflexivity. }
  { cbn [streamStart bytesSent]. lia. }
  { intros i _. apply Hrel. }
  cbn [streamStart bytesSent enqueued map app] in H2, H3.
  unfold chunkLayout. fold q. fold m.
  destruct (Z.eqb_spec m 0) as [Hzero|Hrest].
  - assert (Hcount : chunkCount fileSize = q) by lia.
    cbv zeta. rewrite Hcount, app_nil_r. split; [exact H3|]. rewrite H2. lia.
  - assert (Hcount : Z.to_nat (chunkCount fileSize) = (Z.to_nat q + 1)%nat) by lia.
    cbv zeta. rewrite Hcount. unfold pulls. rewrite repeat_app, run_app.
    fold (pulls (Z.to_nat q)).
    set (wq := run (Download.source fileSize) (pulls (Z.to_nat q))
                 (streamStart r position log)) in *.
    change (run (Download.source fileSize) (repeat PullRequested 1) wq)
      with (dispatch (Download.source fileSize) PullRequested wq).
    assert (Hlt : bytesSent wq < fileSize) by lia.
    rewrite dispatch_emit; [|exact H1|exact Hlt|rewrite H4; apply Hrel].
    assert (Hstep : stepSize fileSize wq = m)
      by (unfold stepSize, Download.chunkSize; lia).
    rewrite Hstep. cbn [enqueued bytesSent].
    rewrite map_app, H3. cbn [map]. rewrite byteLength_tape by lia.
    split; [reflexivity|lia].
Qed.

Lemma drained_stream_layout_witness :
  let w := run (Download.source 2048) (pulls (Z.to_nat (chunkCount 2048)))
             (streamStart countingSource 0 []) in
  map byteLength (enqueued w) = chunkLayout 2048 /\
  bytesSent w = 2048.
Proof.
  apply (drained_stream_layout 2048 countingSource 0 []).
  - vm_compute. split; discriminate.
  - intros p. reflexivity.
Defined.

(** ** Stopping half way *)

(** When the consumer cancels after [j] pulls, the stream has produced
    [j] chunks and [min(j * 65536, fileSize)] bytes, the random source
    has been read for exactly those bytes, and later requests of the
    transport add nothing. *)
Theorem cancel_after_chunks (fileSize : Z) (r : RandomSource) (position : nat)
    (log : list LogLine) (j : nat) (reason : string) (future : list Event) :
  Download.MIN_FILE_SIZE_BYTES <= fileSize <= Download.MAX_FILE_SIZE_BYTES ->
  reliable r ->
  Z.of_nat j <= chunkCount fileSize ->
  let w := run (Download.source fileSize)
             (pulls j ++ CancelRequested reason :: future) (streamStart r position log) in
  state w = CANCELLED /\
  List.length (enqueued w) = j /\
  bytesSent w = Z.min (Z.of_nat j * 65536) fileSize /\
  totalBytes (enqueued w) = bytesSent w /\
  drawn w = (position + Z.to_nat (bytesSent w))%nat.
Proof.
  intros Hsize Hrel Hj.
  assert (Hpos : 0 < fileSize) by (unfold Download.MIN_FILE_SIZE_BYTES in Hsize; lia).
  destruct (run_pulls_upto fileSize r position log j Hpos Hrel Hj) as (H1 & H2 & H3).
  assert (Inv : Invariant fileSize (streamStart r position log)
                  (run (Download.source fileSize) (pulls j) (streamStart r position log)))
    by (apply invariant_run, invariant_start; lia).
  pose proof (inv_total _ _ _ Inv) as Htotal.
  pose proof (inv_drawn _ _ _ Inv) as Hdrawn. cbn [streamStart drawn] in Hdrawn.
  cbv zeta. rewrite run_app, run_cons.
  set (wj := run (Download.source fileSize) (pulls j) (streamStart r position log)) in *.
  rewrite dispatch_cancel by exact H1.
  rewrite run_inert by (cbn [state]; discriminate).
  cbn [state enqueued bytesSent drawn].
  repeat split; assumption.
Qed.

Lemma cancel_after_chunks_witness :
  let w := run (Download.source 2048)
             (pulls 1 ++ CancelRequested "gone" :: [PullRequested])
             (streamStart countingSource 0 []) in
  state w = CANCELLED /\
  List.length (enqueued w) = 1%nat /\
  bytesSent w = Z.min (Z.of_nat 1 * 65536) 2048 /\
  totalBytes (enqueued w) = bytesSent w /\
  drawn w = (0 + Z.to_nat (bytesSent w))%nat.
Proof.
  apply (cancel_after_chunks 2048 countingSource 0 [] 1 "gone" [PullRequested]).
  - vm_compute. split; discriminate.
  - intros p. reflexivity.
  - vm_compute. discriminate.
Defined.

(** ** A source that gives out *)

(** If the random source holds for the first [j] chunks and fails when
    the next one is asked for, the stream ends [ERRORED] with exactly
    those [j] full chunks enqueued, fewer bytes than announced, one
    error line on the console, and later requests of the transport
    change nothing. *)
Theorem first_outage_ends_stream (fileSize : Z) (r : RandomSource) (position : nat)
    (log : list LogLine) (j : nat) (future : list Event) :
  Z.of_nat j * 65536 < fileSize ->
  (forall i, (i < j)%nat ->
             outage r (position + Z.to_nat (Z.of_nat i * 65536)) = false) ->
  outage r (position + Z.to_nat (Z.of_nat j * 65536)) = true ->
  let w := run (Download.source fileSize) (pulls (S j) ++ future)
             (streamStart r position log) in
  state w = ERRORED OperationError /\
  map byteLength (enqueued w) = repeat 65536 j /\
  bytesSent w = Z.of_nat j * 65536 /\
  bytesSent w < fileSize /\
  console w =
    log ++ [console_error_line "Error generating or enqueuing chunk:" OperationError].
Proof.
  intros Hroom Hok Hfail.
  destruct (run_full_pulls fileSize j (streamStart r position log))
    as (H1 & H2 & H3 & H4 & H5 & H6).
  { reflexivity. }
  { cbn [streamStart bytesSent]. lia. }
  { exact Hok. }
  cbn [streamStart bytesSent enqueued random drawn console map app] in H2, H3, H4, H5, H6.
  cbv zeta. replace (S j) with (j + 1)%nat by lia.
  unfold pulls. rewrite repeat_app, !run_app. fold (pulls j).
  set (wj := run (Download.source fileSize) (pulls j) (streamStart r position log)) in *.
  change (run (Download.source fileSize) (repeat PullRequested 1) wj)
    with (dispatch (Download.source fileSize) PullRequested wj).
  rewrite dispatch_fail;
    [|exact H1|lia|rewrite H4, H5; exact Hfail].
  rewrite run_inert by (cbn [state]; discriminate).
  cbn [state enqueued bytesSent console].
  rewrite H2, H3, H6. repeat split; try reflexivity. lia.
Qed.

Lemma first_outage_ends_stream_witness :
  let w := run (Download.source 2048) (pulls 1 ++ [PullRequested])
             (streamStart (failingAt 0) 0 []) in
  state w = ERRORED OperationError /\
  map byteLength (enqueued w) = repeat 65536 0 /\
  bytesSent w = Z.of_nat 0 * 65536 /\
  bytesSent w < 2048 /\
  console w =
    [] ++ [console_error_line "Error generating or enqueuing chunk:" OperationError].
Proof.
  apply (first_outage_ends_stream 2048 (failingAt 0) 0 [] 0 [PullRequested]).
  - reflexivity.
  - intros i Hi. exfalso. exact (Nat.nlt_0_r i Hi).
  - reflexivity.
Defined.

(** ** The revision with a 10 MiB minimum *)

Section TenMebibytes.

Lemma rev001_pull_same (fileSize : Z) : Rev001.pull fileSize = Download.pull fileSize.
Proof. reflexivity. Qed.

Lemma rev001_dispatch_pull (fileSize : Z) (w : World) :
  dispatch (Rev001.source fileSize) PullRequested w
  = dispatch (Download.source fileSize) PullRequested w.
Proof. reflexivity. Qed.

Lemma rev001_dispatch_cancel (fileSize : Z) (w : World) (reason : string) :
  state w = STREAMING ->
  dispatch (Rev001.source fileSize) (CancelRequested reason) w =
    mkWorld (bytesSent w) CANCELLED (enqueued w) (random w) (drawn w)
      (console w ++ [console_log_line ["Stream cancelled by client."; reason]]).
Proof.
  intros Hst. unfold dispatch. rewrite Hst. reflexivity.
Qed.

Lemma rev001_invariant_run (fileSize : Z) (w0 : World) (evs : list Event) :
  forall w,
    Invariant fileSize w0 w ->
    Invariant fileSize w0 (run (Rev001.source fileSize) evs w).
Proof.
  induction evs as [|ev evs IH]; intros w Inv; [exact Inv|].
  rewrite run_cons. apply IH.
  destruct ev as [|reason].
  - rewrite rev001_dispatch_pull. apply invariant_dispatch. exact Inv.
  - destruct (state w) eqn:Hst;
      try (rewrite dispatch_inert by congruence; exact Inv).
    rewrite rev001_dispatch_cancel by exact Hst.
    destruct Inv.
    constructor; cbn [bytesSent state enqueued random drawn console];
      try assumption.
    discriminate.
Qed.

Lemma rev001_run_pulls (fileSize : Z) (j : nat) :
  forall w,
    run (Rev001.source fileSize) (pulls j) w = run (Download.source fileSize) (pulls j) w.
Proof.
  induction j as [|j IH]; intros w; [reflexivity|].
  change (pulls (S j)) with (PullRequested :: pulls j).
  rewrite !run_cons, rev001_dispatch_pull. apply IH.
Qed.

Lemma rev001_resolveFileSize_run (raw : option string) (w : World) :
  exists lines,
    Rev001.resolveFileSize raw w =
      (Normal (Z.max (specResolvedSize raw) Rev001.MIN_FILE_SIZE_BYTES),
       mkWorld (bytesSent w) (state w) (enqueued w) (random w) (drawn w)
         (console w ++ lines)).
Proof.
  unfold Rev001.resolveFileSize, specResolvedSize.
  destruct raw as [[|c r]|]; cbn [truthy ToString].
  - exists []. unfold ret. rewrite app_nil_r, world_eta. reflexivity.
  - destruct (parseInt (String c r) 10) as [|n].
    + eexists [_]. reflexivity.
    + rewrite Z.geb_leb.
      unfold Rev001.MIN_FILE_SIZE_BYTES, Rev001.MAX_FILE_SIZE_BYTES,
        Rev001.DEFAULT_FILE_SIZE_BYTES, Download.MIN_FILE_SIZE_BYTES,
        Download.MAX_FILE_SIZE_BYTES, Download.DEFAULT_FILE_SIZE_BYTES.
      destruct (Z.leb_spec (10 * 1024 * 1024) n);
        destruct (Z.leb_spec n (250 * 1024 * 1024));
        destruct (Z.leb_spec (1 * 1024) n); cbn [andb];
        try (exists []; unfold ret; rewrite app_nil_r, world_eta; f_equal; f_equal; lia);
        try (eexists [_]; unfold bind, console_log, write, ret, with_console;
             f_equal; f_equal; lia).
  - exists []. unfold ret. rewrite app_nil_r, world_eta. reflexivity.
Qed.

Lemma rev001_onRequestGet_run (context : Context) (w : World) :
  exists lines,
    Rev001.onRequestGet context w =
      (Normal
         (mkResponse
            (Some (stream_of
                     (Rev001.source
                        (Z.max (specResolvedSize (searchParams_get "size" context))
                           Rev001.MIN_FILE_SIZE_BYTES))))
            200
            (Rev001.responseHeaders
               (Z.max (specResolvedSize (searchParams_get "size" context))
                  Rev001.MIN_FILE_SIZE_BYTES))),
       streamStart (random w) (drawn w) (console w ++ lines)).
Proof.
  destruct (rev001_resolveFileSize_run (searchParams_get "size" context) w)
    as (lines & Hres).
  exists lines. unfold Rev001.onRequestGet, bind at 1. rewrite Hres.
  reflexivity.
Qed.

Lemma rev001_contentLength (fileSize : Z) :
  getProperty "Content-Length" (Rev001.responseHeaders fileSize) = Some (toString fileSize).
Proof.
  unfold Rev001.responseHeaders. generalize (toString fileSize). intros text.
  reflexivity.
Qed.

End TenMebibytes.

(** The revision with the 10 MiB minimum answers every request with
    status 200 and a stream over [max(m, 10 MiB)] bytes, where [m] is
    the size functions/api/download.js resolves for the same query; so
    it never announces fewer than 10485760 bytes nor more than 250 MiB,
    and a size below 10 MiB that download.js would serve is raised to
    10 MiB. *)
Theorem rev001_serves_at_least_ten_mebibytes (context : Context) (w : World) :
  exists response start n m,
    Rev001.onRequestGet context w = (Normal response, start) /\
    status response = 200 /\
    body response = Some (stream_of (Rev001.source n)) /\
    getProperty "Content-Length" (headers response) = Some (toString n) /\
    completion (Download.resolveFileSize (searchParams_get "size" context)) w = Normal m /\
    n = Z.max m 10485760 /\
    10485760 <= n <= 262144000 /\
    bytesSent start = 0 /\ state start = STREAMING /\ enqueued start = [] /\
    drawn start = drawn w.
Proof.
  destruct (rev001_onRequestGet_run context w) as (lines & Hrun).
  pose proof (specResolvedSize_bounds (searchParams_get "size" context)) as Hm.
  unfold Download.MIN_FILE_SIZE_BYTES, Download.MAX_FILE_SIZE_BYTES in Hm.
  do 2 eexists.
  exists (Z.max (specResolvedSize (searchParams_get "size" context))
            Rev001.MIN_FILE_SIZE_BYTES).
  exists (specResolvedSize (searchParams_get "size" context)).
  split; [exact Hrun|]. split; [reflexivity|]. split; [reflexivity|].
  split; [apply rev001_contentLength|].
  split; [apply resolveFileSize_value|].
  split; [reflexivity|].
  split; [unfold Rev001.MIN_FILE_SIZE_BYTES; lia|].
  repeat split; reflexivity.
Qed.

(** In the revision with the 10 MiB minimum too, whatever the transport
    requests and whether or not the random source fails, the bytes
    enqueued equal the cursor, never exceed the announced
    Content-Length, and come from the random source in order, and a
    [CLOSED] stream has delivered exactly the announced bytes; with a
    source that does not fail, pulling closes the stream with them. *)
Theorem rev001_content_length_matches_body (context : Context) (w : World)
    (history : list Event) :
  exists response start n,
    Rev001.onRequestGet context w = (Normal response, start) /\
    getProperty "Content-Length" (headers response) = Some (toString n) /\
    body response = Some (stream_of (Rev001.source n)) /\
    (let w' := run (Rev001.source n) history start in
     totalBytes (enqueued w') = bytesSent w' /\
     0 <= bytesSent w' <= n /\
     (state w' = CLOSED -> totalBytes (enqueued w') = n) /\
     List.concat (enqueued w')
     = map (tape (random w)) (seq (drawn w) (Z.to_nat (bytesSent w')))) /\
    (reliable (random w) ->
     forall j, (Z.to_nat (chunkCount n) < j)%nat ->
               let w' := run (Rev001.source n) (pulls j) start in
               state w' = CLOSED /\ totalBytes (enqueued w') = n).
Proof.
  destruct (rev001_onRequestGet_run context w) as (lines & Hrun).
  pose proof (specResolvedSize_bounds (searchParams_get "size" context)) as Hm.
  unfold Download.MIN_FILE_SIZE_BYTES, Download.MAX_FILE_SIZE_BYTES in Hm.
  set (n := Z.max (specResolvedSize (searchParams_get "size" context))
              Rev001.MIN_FILE_SIZE_BYTES) in *.
  assert (Hn : 0 < n) by (subst n; unfold Rev001.MIN_FILE_SIZE_BYTES; lia).
  do 2 eexists. exists n.
  split; [exact Hrun|]. split; [apply rev001_contentLength|]. split; [reflexivity|].
  split.
  - cbv zeta.
    assert (Inv : Invariant n (streamStart (random w) (drawn w) (console w ++ lines))
                    (run (Rev001.source n) history
                       (streamStart (random w) (drawn w) (console w ++ lines))))
      by (apply rev001_invariant_run, invariant_start; lia).
    split; [apply (inv_total _ _ _ Inv)|].
    split; [apply (inv_cursor _ _ _ Inv)|].
    split.
    + intros Hclosed. rewrite (inv_total _ _ _ Inv). exact (inv_closed _ _ _ Inv Hclosed).
    + apply (inv_bytes _ _ _ Inv).
  - intros Hrel j Hj. cbv zeta. rewrite rev001_run_pulls.
    destruct (run_pulls_beyond n (random w) (drawn w) (console w ++ lines) j Hn Hrel)
      as (H1 & H2 & _).
    + pose proof (chunkCount_bounds n Hn). lia.
    + assert (Inv : Invariant n (streamStart (random w) (drawn w) (console w ++ lines))
                      (run (Download.source n) (pulls j)
                         (streamStart (random w) (drawn w) (console w ++ lines))))
        by (apply invariant_run, invariant_start; lia).
      split; [exact H1|]. rewrite (inv_total _ _ _ Inv). exact H2.
Qed.

(** ** The revision with a fixed size *)

Section FixedSize.

Lemma byteLength_chunkOfA : byteLength chunkOfA = 65536.
Proof.
  unfold byteLength, chunkOfA. rewrite repeat_length. lia.
Qed.

Lemma totalBytes_chunksOfA (q : nat) :
  totalBytes (repeat chunkOfA q) = Z.of_nat q * 65536.
Proof.
  unfold totalBytes. induction q as [|q IH]; [reflexivity|].
  cbn [repeat fold_right]. rewrite IH, byteLength_chunkOfA. lia.
Qed.

Lemma rev002_dispatch_emit (w : World) :
  state w = STREAMING -> bytesSent w + 65536 <= Rev002.fileSize ->
  dispatch Rev002.source PullRequested w =
    mkWorld (bytesSent w + 65536) STREAMING (enqueued w ++ [chunkOfA])
      (random w) (drawn w) (console w).
Proof.
  intros Hst Hroom. unfold dispatch. rewrite Hst.
  cbn [Rev002.source source_pull]. rewrite rev002_pull_emit by (assumption || lia).
  replace (Z.min Rev002.chunkSize (Rev002.fileSize - bytesSent w)) with 65536
    by (unfold Rev002.chunkSize; lia).
  reflexivity.
Qed.

Lemma rev002_dispatch_close (w : World) :
  state w = STREAMING -> Rev002.fileSize <= bytesSent w ->
  dispatch Rev002.source PullRequested w = with_state CLOSED w.
Proof.
  intros Hst Hge. unfold dispatch. rewrite Hst.
  cbn [Rev002.source source_pull]. unfold Rev002.pull, bind, read.
  destruct (Z.geb_spec (bytesSent w) Rev002.fileSize) as [_|Hlt]; [|lia].
  unfold controller_close. rewrite Hst. reflexivity.
Qed.

Lemma rev002_dispatch_cancel (w : World) (reason : string) :
  state w = STREAMING ->
  dispatch Rev002.source (CancelRequested reason) w =
    mkWorld (bytesSent w) CANCELLED (enqueued w) (random w) (drawn w)
      (console w ++ [console_log_line ["Download stream cancelled:"; reason]]).
Proof.
  intros Hst. unfold dispatch. rewrite Hst. reflexivity.
Qed.

(** Every world the fixed-size stream reaches holds a whole number of
    chunks of the letter a, at most 160, has read nothing from the
    random source, and is not [ERRORED]. *)
Lemma rev002_run_shape (r : RandomSource) (position : nat) (log : list LogLine)
    (history : list Event) :
  exists q,
    (q <= 160)%nat /\
    bytesSent (run Rev002.source history (streamStart r position log))
    = Z.of_nat q * 65536 /\
    enqueued (run Rev002.source history (streamStart r position log))
    = repeat chunkOfA q /\
    drawn (run Rev002.source history (streamStart r position log)) = position /\
    (forall e, state (run Rev002.source history (streamStart r position log))
               <> ERRORED e) /\
    (state (run Rev002.source history (streamStart r position log)) = CLOSED ->
     q = 160%nat).
Proof.
  induction history as [|ev history IH] using rev_ind.
  - exists O. cbn [run fold_left streamStart bytesSent enqueued drawn state repeat].
    repeat split; try reflexivity; try lia; discriminate.
  - destruct IH as (q & Hq & Hsent & Henq & Hdrawn & Hnoerr & Hclosed).
    rewrite run_app.
    set (w := run Rev002.source history (streamStart r position log)) in *.
    change (run Rev002.source [ev] w) with (dispatch Rev002.source ev w).
    destruct (state w) eqn:Hst.
    + destruct ev as [|reason].
      * assert (Hfile : Rev002.fileSize = 160 * 65536) by reflexivity.
        destruct (Nat.eq_dec q 160) as [Hfull|Hless].
        -- rewrite rev002_dispatch_close by (assumption || lia).
           exists q. unfold with_state. cbn [bytesSent state enqueued drawn].
           split; [exact Hq|]. split; [exact Hsent|]. split; [exact Henq|].
           split; [exact Hdrawn|]. split; [intros e; discriminate|].
           intros _. exact Hfull.
        -- rewrite rev002_dispatch_emit by (assumption || lia).
           exists (S q). cbn [bytesSent state enqueued drawn].
           rewrite Hsent, Henq.
           replace (repeat chunkOfA q ++ [chunkOfA]) with (repeat chunkOfA (S q))
             by (cbn [repeat]; apply repeat_cons).
           split; [lia|]. split; [lia|]. split; [reflexivity|].
           split; [exact Hdrawn|]. split; [intros e; discriminate|].
           discriminate.
      * rewrite rev002_dispatch_cancel by exact Hst.
        exists q. cbn [bytesSent state enqueued drawn].
        split; [exact Hq|]. split; [exact Hsent|]. split; [exact Henq|].
        split; [exact Hdrawn|]. split; [intros e; discriminate|].
        discriminate.
    + rewrite dispatch_inert by congruence. exists q. rewrite Hst.
      split; [exact Hq|]. split; [exact Hsent|]. split; [exact Henq|].
      split; [exact Hdrawn|]. split; [intros e; discriminate|].
      intros _. apply Hclosed. reflexivity.
    + exfalso. exact (Hnoerr reason eq_refl).
    + rewrite dispatch_inert by congruence. exists q. rewrite Hst.
      split; [exact Hq|]. split; [exact Hsent|]. split; [exact Henq|].
      split; [exact Hdrawn|]. split; [intros e; discriminate|].
      discriminate.
Qed.

Lemma rev002_run_pulls (j : nat) :
  forall w,
    state w = STREAMING ->
    bytesSent w + Z.of_nat j * 65536 <= Rev002.fileSize ->
    state (run Rev002.source (pulls j) w) = STREAMING /\
    bytesSent (run Rev002.source (pulls j) w) = bytesSent w + Z.of_nat j * 65536 /\
    enqueued (run Rev002.source (pulls j) w) = enqueued w ++ repeat chunkOfA j.
Proof.
  induction j as [|j IH]; intros w Hst Hroom.
  - cbn [pulls repeat run fold_left]. rewrite app_nil_r.
    repeat split; try assumption; lia.
  - change (pulls (S j)) with (PullRequested :: pulls j).
    rewrite run_cons, rev002_dispatch_emit by (assumption || lia).
    set (w1 := mkWorld _ _ _ _ _ _).
    destruct (IH w1) as (H1 & H2 & H3); [reflexivity|subst w1; cbn [bytesSent]; lia|].
    rewrite H1, H2, H3. subst w1. cbn [bytesSent enqueued].
    rewrite <- app_assoc. cbn [app repeat].
    repeat split; try reflexivity; lia.
Qed.

End FixedSize.

(** The fixed-size revision pays no attention to the query: every
    request is answered with Content-Length 10485760 and a stream whose
    every reachable world holds whole chunks of 65536 letters a, as
    many bytes as the cursor says, with nothing read from the random
    source and the stream never [ERRORED]; a [CLOSED] stream holds
    exactly the announced bytes, and the stream is [CLOSED] as soon as
    the transport has pulled more than 160 times. *)
Theorem rev002_stream_delivers_fixed_size (context : Context) (w : World)
    (history : list Event) :
  exists response start,
    Rev002.onRequestGet context w = (Normal response, start) /\
    status response = 200 /\
    getProperty "Content-Length" (headers response) = Some "10485760" /\
    body response = Some (stream_of Rev002.source) /\
    (exists q,
        (q <= 160)%nat /\
        enqueued (run Rev002.source history start) = repeat chunkOfA q /\
        bytesSent (run Rev002.source history start) = Z.of_nat q * 65536 /\
        totalBytes (enqueued (run Rev002.source history start))
        = bytesSent (run Rev002.source history start) /\
        drawn (run Rev002.source history start) = drawn w /\
        (forall e, state (run Rev002.source history start) <> ERRORED e) /\
        (state (run Rev002.source history start) = CLOSED ->
         totalBytes (enqueued (run Rev002.source history start)) = 10485760)) /\
    (forall j, (160 < j)%nat ->
               state (run Rev002.source (pulls j) start) = CLOSED /\
               enqueued (run Rev002.source (pulls j) start) = repeat chunkOfA 160).
Proof.
  exists (mkResponse (Some (stream_of Rev002.source)) 200
            (objectLiteral Rev002.corsHeaders
               [("Content-Type", "application/octet-stream");
                ("Content-Length", toString Rev002.fileSize);
                ("Cache-Control", "no-store, no-cache, must-revalidate, max-age=0");
                ("Pragma", "no-cache")])).
  exists (streamStart (random w) (drawn w) (console w)).
  split; [reflexivity|]. split; [reflexivity|]. split; [reflexivity|].
  split; [reflexivity|]. split.
  - destruct (rev002_run_shape (random w) (drawn w) (console w) history)
      as (q & Hq & Hsent & Henq & Hdrawn & Hnoerr & Hclosed).
    exists q. rewrite Henq, Hsent, totalBytes_chunksOfA.
    repeat split; try assumption; try reflexivity.
    intros Hst. rewrite (Hclosed Hst). reflexivity.
  - intros j Hj.
    replace j with (160 + (1 + (j - 161)))%nat by lia.
    unfold pulls. rewrite !repeat_app, !run_app. fold (pulls 160).
    destruct (rev002_run_pulls 160 (streamStart (random w) (drawn w) (console w)))
      as (H1 & H2 & H3); [reflexivity|reflexivity|].
    set (wk := run Rev002.source (pulls 160)
                 (streamStart (random w) (drawn w) (console w))) in *.
    change (run Rev002.source (repeat PullRequested 1) wk)
      with (dispatch Rev002.source PullRequested wk).
    rewrite rev002_dispatch_close;
      [|exact H1|rewrite H2; cbn [streamStart bytesSent]; reflexivity].
    rewrite run_inert by (unfold with_state; cbn [state]; discriminate).
    unfold with_state. cbn [state enqueued]. split; [reflexivity|exact H3].
Qed.
